(** * Toolbar heatmap logic (frontend/src/toolbar/elements/heatmapLogic.ts)

    A shallow embedding of the selectors and loaders of [heatmapLogic]:
    the selector resolver ([elements]), the element aggregator
    ([countedElements]), the heatmap projector ([heatmapElements],
    [heatmapJsData]), the viewport range ([viewportRange_double],
    [viewportRange]) and the element-stats loader ([getElementStats]).

    Numbers.  A JavaScript [number] is a binary64 double, and the arithmetic
    of the projector and of the viewport range is that of the source on
    [PrimFloat.float], operation by operation: [heatmapElements],
    [heatmapJsData] and [viewportRange_double].  [Math.round] yields an
    integral double, which is given as the integer it is ([Rounded]).  The
    [count] fields are integers that the code only copies and adds: [Z].
    [viewportRange] is the same expression as [viewportRange_double] over the
    exact rationals, with an integral window width ([window.innerWidth] is a
    WebIDL [long]): the real-number reading of the selector. *)

From Stdlib Require Import ZArith QArith Qround Qpower Lia Lqa Ascii.
From Stdlib Require Uint63.
From Corelib Require Import PrimFloat.
From Corelib Require SpecFloat FloatOps FloatAxioms.
From stdpp Require Import gmap strings list sorting.

Local Open Scope Z_scope.
Local Set Warnings "-inexact-float".

(** ** JavaScript primitives *)

(** [Math.round] and [Math.max] on exact rationals: the nearest integer, a
    half rounding towards plus infinity, and the larger of two numbers. *)
Definition Math_round (q : Q) : Z := Qfloor (q + (1 # 2)).

Definition Math_max (a b : Q) : Q := if Qle_bool a b then b else a.

(** The value of [Math.round]: an integral double, or the argument itself
    when that is NaN or an infinity.  The integer forgets the sign of a zero,
    which [===] does not tell apart either. *)
Inductive Rounded :=
| Integer (z : Z)
| NotFinite (x : float).

(** [Math.round] on a double.  A finite double is [(-1)^s * m * 2^e] for the
    sign, mantissa and exponent that [Prim2SF] reads off it; with [e >= 0] it
    is integral, and otherwise the nearest integer, a half rounding towards
    plus infinity, is the floor of [(2 * n + 2^(-e)) / 2^(-e + 1)] for
    [n = (-1)^s * m]. *)
Definition Math_round_double (x : float) : Rounded :=
  match FloatOps.Prim2SF x with
  | SpecFloat.S754_zero _ => Integer 0
  | SpecFloat.S754_finite s m e =>
      let n := if s then Z.neg m else Z.pos m in
      Integer (if 0 <=? e then n * 2 ^ e
               else (2 * n + 2 ^ (- e)) / 2 ^ (- e + 1))
  | _ => NotFinite x
  end.

(** [Math.max] on two doubles (up to the sign of a zero): NaN when either
    argument is. *)
Definition Math_max_double (a b : float) : float :=
  if PrimFloat.is_nan a then a
  else if PrimFloat.is_nan b then b
  else if PrimFloat.ltb a b then b
  else a.

(** [Number.isFinite]: neither NaN nor an infinity. *)
Definition Number_isFinite (x : float) : bool :=
  match FloatOps.Prim2SF x with
  | SpecFloat.S754_zero _ | SpecFloat.S754_finite _ _ _ => true
  | _ => false
  end.

(** The double of a natural number below 2^53, which is exact, and the double
    nearest to [k / 10], which is what the decimal literal of that fraction
    denotes. *)
Definition double_of_nat (n : nat) : float :=
  PrimFloat.of_uint63 (Uint63.of_Z (Z.of_nat n)).

Definition tenths (k : nat) : float :=
  PrimFloat.div (double_of_nat k) (double_of_nat 10).

(** Truthiness of a string: every string but the empty one. *)
Definition truthy (s : string) : bool := negb (String.eqb s "").

(** Truthiness of an optional string ([undefined] is falsy). *)
Definition truthy_opt (o : option string) : bool :=
  match o with
  | Some s => truthy s
  | None => false
  end.

(** [Array.prototype.sort(compareFn)].  ECMAScript requires the sort to be
    stable and, for a consistent comparator, to leave [a] before [b] whenever
    [compareFn(a, b) < 0]; these two conditions fix the result, which the
    insertion sort below computes: an element moves behind those that compare
    strictly smaller and stays before its ties. *)
Fixpoint Array_insert {A : Type} (compareFn : A -> A -> Z) (a : A) (l : list A)
  : list A :=
  match l with
  | [] => [a]
  | b :: l' =>
      if 0 <? compareFn a b then b :: Array_insert compareFn a l' else a :: l
  end.

Definition Array_sort {A : Type} (compareFn : A -> A -> Z) (l : list A) : list A :=
  foldr (Array_insert compareFn) [] l.

(** A JavaScript [Map] keeps its entries in insertion order, and here its keys
    are objects compared by identity: an association list without duplicate
    keys.  [Map_set] on a key already present replaces the value where it
    stands, which is also what a mutation of the stored object amounts to. *)
Fixpoint Map_get {K V : Type} `{EqDecision K} (m : list (K * V)) (k : K) : option V :=
  match m with
  | [] => None
  | (k', v) :: m' => if decide (k' = k) then Some v else Map_get m' k
  end.

Fixpoint Map_set {K V : Type} `{EqDecision K} (k : K) (v : V) (m : list (K * V))
  : list (K * V) :=
  match m with
  | [] => [(k, v)]
  | (k', v') :: m' =>
      if decide (k' = k) then (k, v) :: m' else (k', v') :: Map_set k v m'
  end.

(** [Array.from(m.values())]. *)
Definition Map_values {K V : Type} (m : list (K * V)) : list V := map snd m.

(** ** The heatmap projector *)

(** [HeatmapFixedPositionMode = 'fixed' | 'relative' | 'hidden']. *)
Inductive HeatmapFixedPositionMode := fixed | relative | hidden.

Definition is_hidden (m : HeatmapFixedPositionMode) : bool :=
  match m with hidden => true | _ => false end.

Definition is_fixed (m : HeatmapFixedPositionMode) : bool :=
  match m with fixed => true | _ => false end.

(** One entry of [HeatmapResponseType.results]: the source tells the two
    shapes apart with ['scroll_depth_bucket' in element]. *)
Inductive HeatmapResult :=
| ScrollDepthResult (scroll_depth_bucket : float) (cumulative_count : Z)
| PointerResult (count : Z) (pointer_relative_x : float) (pointer_y : float)
    (pointer_target_fixed : bool).

Record HeatmapResponseType := { results : list HeatmapResult }.

Module HeatmapElement.
Record t := mk { count : Z; xPercentage : float; targetFixed : bool; y : float }.
End HeatmapElement.

Module HeatmapJsDataPoint.
Record t := mk { x : Rounded; y : Rounded; value : Z }.
End HeatmapJsDataPoint.

Module HeatmapJsData.
Record t := mk { data : list HeatmapJsDataPoint.t; max : Z; min : Z }.
End HeatmapJsData.

(** The callback of [rawHeatmap.results.forEach] in [heatmapElements]: the
    element pushed for one result. *)
Definition heatmapElement_of (element : HeatmapResult) : HeatmapElement.t :=
  match element with
  | ScrollDepthResult scroll_depth_bucket cumulative_count =>
      HeatmapElement.mk cumulative_count 0%float false scroll_depth_bucket
  | PointerResult count pointer_relative_x pointer_y pointer_target_fixed =>
      HeatmapElement.mk count pointer_relative_x pointer_target_fixed pointer_y
  end.

(** The selector [heatmapElements]. *)
Definition heatmapElements (rawHeatmap : option HeatmapResponseType)
  : list HeatmapElement.t :=
  match rawHeatmap with
  | None => []
  | Some raw =>
      fold_left (fun elements element => elements ++ [heatmapElement_of element])
        (results raw) []
  end.

(** The reducer callback of [heatmapElements.reduce] in [heatmapJsData]. *)
Definition heatmapJsData_step (heatmapScrollY windowWidth : float)
    (heatmapFixedPositionMode : HeatmapFixedPositionMode)
    (acc : list HeatmapJsDataPoint.t) (element : HeatmapElement.t)
  : list HeatmapJsDataPoint.t :=
  if is_hidden heatmapFixedPositionMode && HeatmapElement.targetFixed element
  then acc
  else
    let y :=
      Math_round_double
        (if HeatmapElement.targetFixed element && is_fixed heatmapFixedPositionMode
         then HeatmapElement.y element
         else PrimFloat.sub (HeatmapElement.y element) heatmapScrollY) in
    let x :=
      Math_round_double (PrimFloat.mul (HeatmapElement.xPercentage element) windowWidth) in
    acc ++ [HeatmapJsDataPoint.mk x y (HeatmapElement.count element)].

(** The selector [heatmapJsData]. *)
Definition heatmapJsData (heatmapElements : list HeatmapElement.t)
    (heatmapScrollY windowWidth : float)
    (heatmapFixedPositionMode : HeatmapFixedPositionMode) : HeatmapJsData.t :=
  let data :=
    fold_left (heatmapJsData_step heatmapScrollY windowWidth heatmapFixedPositionMode)
      heatmapElements [] in
  let max :=
    fold_left (fun max p => Z.max max (HeatmapJsDataPoint.value p)) data 0 in
  HeatmapJsData.mk data max 0.

(** ** The viewport range *)

Module HeatmapFilters.
Record t := mk {
    enabled : bool;
    type : option string;
    viewportAccuracy : option Q;
    aggregation : option string
  }.
End HeatmapFilters.

Module ViewportRange.
Record t := mk { max : Z; min : Z }.
End ViewportRange.

(** The [extraPixels] constant of [viewportRange], over the rationals. *)
Definition extraPixels (heatmapFilters : HeatmapFilters.t) (windowWidth : Z) : Q :=
  let viewportAccuracy :=
    match HeatmapFilters.viewportAccuracy heatmapFilters with
    | Some a => a
    | None => 2 # 10
    end in
  (inject_Z windowWidth - inject_Z windowWidth * viewportAccuracy)%Q.

(** The selector [viewportRange], over the rationals. *)
Definition viewportRange (heatmapFilters : HeatmapFilters.t) (windowWidth : Z)
  : ViewportRange.t :=
  let extraPixels := extraPixels heatmapFilters windowWidth in
  let minWidth := Math_max 0 (inject_Z windowWidth - extraPixels) in
  let maxWidth := (inject_Z windowWidth + extraPixels)%Q in
  ViewportRange.mk (Math_round maxWidth) (Math_round minWidth).


(** The selector [viewportRange] as the source computes it, in binary64:
    [viewportAccuracy] is [heatmapFilters.viewportAccuracy], the one property
    of the filters that the selector reads. *)
Module ViewportRange_double.
Record t := mk { max : Rounded; min : Rounded }.
End ViewportRange_double.

Definition extraPixels_double (viewportAccuracy : option float) (windowWidth : float)
  : float :=
  let viewportAccuracy :=
    match viewportAccuracy with
    | Some a => a
    | None => 0.2%float
    end in
  PrimFloat.sub windowWidth (PrimFloat.mul windowWidth viewportAccuracy).

Definition viewportRange_double (viewportAccuracy : option float) (windowWidth : float)
  : ViewportRange_double.t :=
  let extraPixels := extraPixels_double viewportAccuracy windowWidth in
  let minWidth := Math_max_double 0%float (PrimFloat.sub windowWidth extraPixels) in
  let maxWidth := PrimFloat.add windowWidth extraPixels in
  ViewportRange_double.mk (Math_round_double maxWidth) (Math_round_double minWidth).

(** A rounded double within one of an integer, and an integer between two
    rounded doubles. *)
Definition within_one (r : Rounded) (z : Z) : bool :=
  match r with
  | Integer y => Z.abs (y - z) <=? 1
  | NotFinite _ => false
  end.

Definition between (lo hi : Rounded) (z : Z) : bool :=
  match lo, hi with
  | Integer l, Integer h => (l <=? z) && (z <=? h)
  | _, _ => false
  end.

(** The check of the binary64 range of an integral width and an accuracy of
    [k] tenths: it is within one of the range over the rationals, and it
    contains the width. *)
Definition ranges_agree (windowWidth k : nat) : bool :=
  let exact :=
    viewportRange
      (HeatmapFilters.mk true None (Some (Z.of_nat k # 10)) None)
      (Z.of_nat windowWidth) in
  let double := viewportRange_double (Some (tenths k)) (double_of_nat windowWidth) in
  within_one (ViewportRange_double.min double) (ViewportRange.min exact)
  && within_one (ViewportRange_double.max double) (ViewportRange.max exact)
  && between (ViewportRange_double.min double) (ViewportRange_double.max double)
       (Z.of_nat windowWidth).

(** ** Data of the element-stats pipeline *)

(** [string | null | undefined], for the continuation tokens of a page. *)
Inductive Token := undefined | null | token (url : string).

(** [ElementType] of [~/types]: one descriptor of an element path.  The
    optional fields are [None] when absent. *)
Module ElementType.
Record t := mk {
    tag_name : string;
    attr_class : option (list string);
    attr_id : option string;
    href : option string;
    text : option string;
    nth_child : option Z;
    nth_of_type : option Z;
    attributes : gmap string string
  }.
End ElementType.

(** [ElementsEventType]: an interaction event, its path innermost first. *)
Module ElementsEventType.
Record t := mk {
    count : Z;
    elements : list ElementType.t;
    hash : string;
    type : string
  }.
End ElementsEventType.

(** [PaginatedResponse<ElementsEventType>]. *)
Module PaginatedResponse.
Record t := mk {
    next : Token;
    previous : Token;
    results : list ElementsEventType.t
  }.
End PaginatedResponse.

Definition emptyElementsStatsPages : PaginatedResponse.t :=
  PaginatedResponse.mk undefined undefined [].

(** The object literal that [elements] pushes and casts to
    [CountedHTMLElement]: only these five fields are set at that stage.  The
    resolver pushes it with [domElements[0]] as element, an element or
    [undefined]; the aggregator reads it with an element. *)
Module ResolvedElement.
Record t (HTMLElement : Type) := mk {
    element : HTMLElement;
    count : Z;
    selector : string;
    hash : string;
    type : string
  }.
Arguments mk {HTMLElement} _ _ _ _ _.
Arguments element {HTMLElement} _.
Arguments count {HTMLElement} _.
Arguments selector {HTMLElement} _.
Arguments hash {HTMLElement} _.
Arguments type {HTMLElement} _.
End ResolvedElement.

(** [CountedHTMLElement] of [~/toolbar/types], as [countedElements] fills it. *)
Module CountedHTMLElement.
Record t (HTMLElement ActionStepType : Type) := mk {
    element : HTMLElement;
    count : Z;
    selector : string;
    hash : string;
    type : string;
    clickCount : Z;
    rageclickCount : Z;
    actionStep : option ActionStepType;
    position : option Z
  }.
Arguments mk {HTMLElement ActionStepType} _ _ _ _ _ _ _ _ _.
Arguments element {HTMLElement ActionStepType} _.
Arguments count {HTMLElement ActionStepType} _.
Arguments selector {HTMLElement ActionStepType} _.
Arguments hash {HTMLElement ActionStepType} _.
Arguments type {HTMLElement ActionStepType} _.
Arguments clickCount {HTMLElement ActionStepType} _.
Arguments rageclickCount {HTMLElement ActionStepType} _.
Arguments actionStep {HTMLElement ActionStepType} _.
Arguments position {HTMLElement ActionStepType} _.
End CountedHTMLElement.

(** The kea [cache] of the logic, as far as [elements] uses it. *)
Module Cache.
Record t (HTMLElement : Type) := mk {
    lastHref : option string;
    pageElements : list HTMLElement;
    selectorToElements : gmap string (list HTMLElement)
  }.
Arguments mk {HTMLElement} _ _ _.
Arguments lastHref {HTMLElement} _.
Arguments pageElements {HTMLElement} _.
Arguments selectorToElements {HTMLElement} _.

(** The cache of a freshly built logic: every property is [undefined]. *)
Definition empty {HTMLElement : Type} : t HTMLElement := mk None [] ∅.
End Cache.

(** The condition of the ["too simple selector"] test on a path element [e],
    without its [i === 0] conjunct:
    [e.tag_name && !e.attr_class && !e.attr_id && !e.href && !e.text &&
     e.nth_child === 1 && e.nth_of_type === 1 && !e.attributes['attr__data-attr']].
    An array is truthy even when empty, so [!e.attr_class] holds only for an
    absent class list. *)
Definition tooSimple (e : ElementType.t) : bool :=
  truthy (ElementType.tag_name e)
  && negb (bool_decide (is_Some (ElementType.attr_class e)))
  && negb (truthy_opt (ElementType.attr_id e))
  && negb (truthy_opt (ElementType.href e))
  && negb (truthy_opt (ElementType.text e))
  && bool_decide (ElementType.nth_child e = Some 1)
  && bool_decide (ElementType.nth_of_type e = Some 1)
  && negb (truthy_opt (ElementType.attributes e !! "attr__data-attr")).

(** [{ ...element, href: undefined }]. *)
Definition without_href (element : ElementType.t) : ElementType.t :=
  ElementType.mk (ElementType.tag_name element) (ElementType.attr_class element)
    (ElementType.attr_id element) None (ElementType.text element)
    (ElementType.nth_child element) (ElementType.nth_of_type element)
    (ElementType.attributes element).

(** ** The selector resolver and the element aggregator *)

(** [cache.selectorToElements] is a plain object ([{}]), so a property read
    that finds no own property goes on to [Object.prototype].
    [Object_prototype key] is what the read finds there: [None] when
    [key] names no member of [Object.prototype], and otherwise the [length] of
    that member, since that is all the loop reads of it besides the index 0,
    which no member has.  The members are functions, whose [length] is their
    number of parameters, and the accessor [__proto__], whose value is
    [Object.prototype] itself and has no [length]. *)
Definition Object_prototype (key : string) : option (option nat) :=
  if existsb (String.eqb key)
       ["constructor"; "hasOwnProperty"; "isPrototypeOf"; "propertyIsEnumerable";
        "__lookupGetter__"; "__lookupSetter__"]
  then Some (Some 1%nat)
  else if existsb (String.eqb key) ["toString"; "toLocaleString"; "valueOf"]
  then Some (Some 0%nat)
  else if existsb (String.eqb key) ["__defineGetter__"; "__defineSetter__"]
  then Some (Some 2%nat)
  else if String.eqb key "__proto__"
  then Some None
  else None.

(** A member name has no space in it, unlike a combined selector. *)
Fixpoint has_space (s : string) : bool :=
  match s with
  | EmptyString => false
  | String a s' => Ascii.eqb a " "%char || has_space s'
  end.

(** The value of the variable [domElements] once the memo has been read and,
    if need be, filled: an array of elements, stored by this or an earlier
    query, or a member of [Object.prototype]. *)
Inductive DomElements (HTMLElement : Type) :=
| elementsArray (domElements : list HTMLElement)
| prototypeMember (length : option nat).
Arguments elementsArray {HTMLElement} _.
Arguments prototypeMember {HTMLElement} _.

(** [domElements.length] and [domElements[0]] ([None]: [undefined]). *)
Definition lengthOf {HTMLElement : Type} (domElements : DomElements HTMLElement)
  : option nat :=
  match domElements with
  | elementsArray l => Some (length l)
  | prototypeMember n => n
  end.

Definition firstOf {HTMLElement : Type} (domElements : DomElements HTMLElement)
  : option HTMLElement :=
  match domElements with
  | elementsArray l => head l
  | prototypeMember _ => None
  end.

(** How the [forEach] callback of [elements] ends for one event: it has pushed
    an element, it has pushed none, or an exception has left it. *)
Inductive Resolution (A : Type) :=
| Resolved (element : A)
| Unresolved
| Raised.
Arguments Resolved {A} _.
Arguments Unresolved {A}.
Arguments Raised {A}.

(** The value of [lastSelector] at step [i + 1] of the loop when no step so
    far has matched anything: the innermost selector [s0] behind [i]
    wildcards. *)
Fixpoint widened (i : nat) (s0 : string) : string :=
  match i with
  | O => s0
  | S i => "* > " +:+ widened i s0
  end.

Section Elements.

(** Live DOM nodes, compared by identity, and the document they belong to. *)
Context {HTMLElement : Type} `{EqDecision HTMLElement}.
Context {Document ActionStepType : Type}.

(** [elementToSelector] of [lib/actionUtils]; [None] when the call throws. *)
Variable elementToSelector : ElementType.t -> list string -> option string.

(** [collectAllElementsDeep('*', document)] and
    [querySelectorAllDeep(selector, document, pageElements)] of
    [query-selector-shadow-dom]; a query that throws (a selector the engine
    cannot parse) is [None]. *)
Variable collectAllElementsDeep : Document -> list HTMLElement.
Variable querySelectorAllDeep :
  string -> Document -> list HTMLElement -> option (list HTMLElement).

(** [trimElement] (an element or [null]) and [elementToActionStep] of
    [~/toolbar/utils]. *)
Variable trimElement : HTMLElement -> option HTMLElement.
Variable elementToActionStep : HTMLElement -> list string -> ActionStepType.

(** The first statements of the [try] block: the memoised query.  The read
    [cache.selectorToElements?.[combinedSelector]] finds an own property, or
    else a member of [Object.prototype]; only when it finds neither is the
    document queried and the result stored.  [None] is an exception of the
    query, which leaves the cache as it was. *)
Definition domElementsOf (document : Document) (cache : Cache.t HTMLElement)
    (combinedSelector : string)
  : option (DomElements HTMLElement * Cache.t HTMLElement) :=
  match Cache.selectorToElements cache !! combinedSelector with
  | Some domElements => Some (elementsArray domElements, cache)
  | None =>
      match Object_prototype combinedSelector with
      | Some length => Some (prototypeMember length, cache)
      | None =>
          match querySelectorAllDeep combinedSelector document (Cache.pageElements cache) with
          | Some domElements =>
              Some (elementsArray domElements,
                    Cache.mk (Cache.lastHref cache) (Cache.pageElements cache)
                      (<[combinedSelector := domElements]> (Cache.selectorToElements cache)))
          | None => None
          end
      end
  end.

(** [elementToSelector(matchLinksByHref ? element : {...}, dataAttributes) || '*'];
    [None] when [elementToSelector] throws. *)
Definition selectorOf (dataAttributes : list string) (matchLinksByHref : bool)
    (element : ElementType.t) : option string :=
  match
    elementToSelector (if matchLinksByHref then element else without_href element)
      dataAttributes
  with
  | Some selector => Some (if truthy selector then selector else "*")
  | None => None
  end.

(** [lastSelector ? `${selector} > ${lastSelector}` : selector]. *)
Definition combine (selector : string) (lastSelector : option string) : string :=
  match lastSelector with
  | Some last => if truthy last then selector +:+ " > " +:+ last else selector
  | None => selector
  end.

(** The [for] loop of the [forEach] callback of [elements], from index [i] on:
    [rest] is [event.elements.slice(i)].  The call of [elementToSelector]
    stands before the [try] block, so its exception leaves the callback; an
    exception inside the block breaks the loop.  The result is the cache and
    how the callback ends; the [element] of what it pushes is
    [domElements[0]], which is [undefined] ([None]) on a member of
    [Object.prototype]. *)
Fixpoint matchFrom (document : Document) (dataAttributes : list string)
    (matchLinksByHref : bool) (event : ElementsEventType.t)
    (cache : Cache.t HTMLElement) (i : nat) (lastSelector : option string)
    (rest : list ElementType.t)
  : Cache.t HTMLElement * Resolution (ResolvedElement.t (option HTMLElement)) :=
  match rest with
  | [] => (cache, Unresolved)
  | e :: rest' =>
      match selectorOf dataAttributes matchLinksByHref e with
      | None => (cache, Raised)
      | Some selector =>
          let combinedSelector := combine selector lastSelector in
          match domElementsOf document cache combinedSelector with
          | None => (cache, Unresolved) (* catch: break *)
          | Some (domElements, cache) =>
              let continue lastSelector :=
                matchFrom document dataAttributes matchLinksByHref event cache (S i)
                  lastSelector rest' in
              match lengthOf domElements with
              | Some 1%nat =>
                  if Nat.eqb i 0 && tooSimple e
                  then continue (Some combinedSelector) (* too simple selector, bail *)
                  else
                    (cache,
                     Resolved
                       (ResolvedElement.mk (firstOf domElements)
                          (ElementsEventType.count event) selector
                          (ElementsEventType.hash event) (ElementsEventType.type event)))
              | Some 0%nat =>
                  if bool_decide (rest' = [])
                  then (cache, Unresolved)
                  else if Nat.ltb 0 i && truthy_opt lastSelector
                  then
                    continue
                      (Some (if truthy_opt lastSelector
                             then "* > " +:+ default "" lastSelector
                             else "*"))
                  else continue (Some combinedSelector)
              | _ => continue (Some combinedSelector)
              end
          end
      end
  end.

(** The [forEach] callback of [elements] for one event. *)
Definition matchEvent (document : Document) (dataAttributes : list string)
    (matchLinksByHref : bool) (cache : Cache.t HTMLElement)
    (event : ElementsEventType.t)
  : Cache.t HTMLElement * Resolution (ResolvedElement.t (option HTMLElement)) :=
  matchFrom document dataAttributes matchLinksByHref event cache 0 None
    (ElementsEventType.elements event).

(** The three cache statements that open the selector [elements]. *)
Definition refreshCache (document : Document) (href : string)
    (cache : Cache.t HTMLElement) : Cache.t HTMLElement :=
  let same := bool_decide (Cache.lastHref cache = Some href) in
  Cache.mk (Some href)
    (if same then Cache.pageElements cache else collectAllElementsDeep document)
    (if same then Cache.selectorToElements cache else ∅).

(** The [forEach] over the events, one event further: the cache and the array
    [elements] before and after, the array being [None] once an exception has
    left the callback, which ends the [forEach] and the selector with it. *)
Definition pushMatch (document : Document) (dataAttributes : list string)
    (matchLinksByHref : bool)
    (state : Cache.t HTMLElement * option (list (ResolvedElement.t (option HTMLElement))))
    (event : ElementsEventType.t)
  : Cache.t HTMLElement * option (list (ResolvedElement.t (option HTMLElement))) :=
  match snd state with
  | None => state
  | Some elements =>
      match matchEvent document dataAttributes matchLinksByHref (fst state) event with
      | (cache, Resolved element) => (cache, Some (elements ++ [element]))
      | (cache, Unresolved) => (cache, Some elements)
      | (cache, Raised) => (cache, None)
      end
  end.

(** The selector [elements], with the kea cache it reads and writes: the
    array it returns, or [None] when it throws. *)
Definition elements (document : Document) (cache : Cache.t HTMLElement)
    (elementStats : option PaginatedResponse.t) (dataAttributes : list string)
    (href : string) (matchLinksByHref : bool)
  : Cache.t HTMLElement * option (list (ResolvedElement.t (option HTMLElement))) :=
  fold_left (pushMatch document dataAttributes matchLinksByHref)
    (match elementStats with
     | Some stats => PaginatedResponse.results stats
     | None => []
     end)
    (refreshCache document href cache, Some []).

(** A cache is coherent with a document when each memoised entry is what the
    query returns on that document now; the cache of a new URL is empty and
    so coherent, and a cache kept for an unchanged URL is coherent as long as
    the page has not changed under it. *)
Definition coherent (document : Document) (cache : Cache.t HTMLElement) : Prop :=
  forall selector domElements,
    Cache.selectorToElements cache !! selector = Some domElements ->
    querySelectorAllDeep selector document (Cache.pageElements cache)
    = Some domElements.

(** [elementToSelector] throws on no path element of these events. *)
Definition constructible (dataAttributes : list string) (matchLinksByHref : bool)
    (events : list ElementsEventType.t) : Prop :=
  forall event e,
    event ∈ events -> e ∈ ElementsEventType.elements event ->
    is_Some (selectorOf dataAttributes matchLinksByHref e).

(** The [forEach] callback of [countedElements]. *)
Definition normalise (dataAttributes : list string)
    (normalisedElements :
       list (HTMLElement * CountedHTMLElement.t HTMLElement ActionStepType))
    (countedElement : ResolvedElement.t HTMLElement)
  : list (HTMLElement * CountedHTMLElement.t HTMLElement ActionStepType) :=
  match trimElement (ResolvedElement.element countedElement) with
  | None => normalisedElements
  | Some trimmedElement =>
      let count := ResolvedElement.count countedElement in
      let rage := String.eqb (ResolvedElement.type countedElement) "$rageclick" in
      match Map_get normalisedElements trimmedElement with
      | Some existing =>
          Map_set trimmedElement
            (CountedHTMLElement.mk
               (CountedHTMLElement.element existing)
               (CountedHTMLElement.count existing + count)
               (CountedHTMLElement.selector existing)
               (CountedHTMLElement.hash existing)
               (CountedHTMLElement.type existing)
               (CountedHTMLElement.clickCount existing + (if rage then 0 else count))
               (CountedHTMLElement.rageclickCount existing + (if rage then count else 0))
               (CountedHTMLElement.actionStep existing)
               (CountedHTMLElement.position existing))
            normalisedElements
      | None =>
          Map_set trimmedElement
            (CountedHTMLElement.mk
               trimmedElement
               count
               (ResolvedElement.selector countedElement)
               (ResolvedElement.hash countedElement)
               (ResolvedElement.type countedElement)
               (if rage then 0 else count)
               (if rage then count else 0)
               (Some (elementToActionStep trimmedElement dataAttributes))
               None)
            normalisedElements
      end
  end.

(** [{ ...e, position: i + 1 }]. *)
Definition withPosition (i : nat)
    (e : CountedHTMLElement.t HTMLElement ActionStepType)
  : CountedHTMLElement.t HTMLElement ActionStepType :=
  CountedHTMLElement.mk
    (CountedHTMLElement.element e) (CountedHTMLElement.count e)
    (CountedHTMLElement.selector e) (CountedHTMLElement.hash e)
    (CountedHTMLElement.type e) (CountedHTMLElement.clickCount e)
    (CountedHTMLElement.rageclickCount e) (CountedHTMLElement.actionStep e)
    (Some (Z.of_nat i + 1)).

(** The comparator [(a, b) => b.count - a.count]. *)
Definition byCountDescending
    (a b : CountedHTMLElement.t HTMLElement ActionStepType) : Z :=
  CountedHTMLElement.count b - CountedHTMLElement.count a.

(** The value of [normalisedElements] once the [forEach] is over. *)
Definition normalisedElementsOf (elements : list (ResolvedElement.t HTMLElement))
    (dataAttributes : list string)
  : list (HTMLElement * CountedHTMLElement.t HTMLElement ActionStepType) :=
  fold_left (normalise dataAttributes) elements [].

(** The selector [countedElements]. *)
Definition countedElements (elements : list (ResolvedElement.t HTMLElement))
    (dataAttributes : list string) (clickmapsEnabled : bool)
  : list (CountedHTMLElement.t HTMLElement ActionStepType) :=
  if negb clickmapsEnabled then []
  else
    let normalisedElements := normalisedElementsOf elements dataAttributes in
    let countedElements := Map_values normalisedElements in
    let countedElements := Array_sort byCountDescending countedElements in
    imap withPosition countedElements.

(** What the aggregator's counts are measured against: the resolved elements
    that [trimElement] sends to a given node, the test of the rage-click type,
    and the sum of the counts of a list of resolved elements. *)
Definition trimsTo (node : HTMLElement) (r : ResolvedElement.t HTMLElement) : bool :=
  bool_decide (trimElement (ResolvedElement.element r) = Some node).

Definition isRageclick (r : ResolvedElement.t HTMLElement) : bool :=
  String.eqb (ResolvedElement.type r) "$rageclick".

Definition sumCount (l : list (ResolvedElement.t HTMLElement)) : Z :=
  foldr (fun r total => ResolvedElement.count r + total) 0 l.

(** The counts an entry for [node] must carry once [seen] has been processed. *)
Definition settled (seen : list (ResolvedElement.t HTMLElement)) (node : HTMLElement)
    (c : CountedHTMLElement.t HTMLElement ActionStepType) : Prop :=
  CountedHTMLElement.element c = node
  /\ CountedHTMLElement.count c = sumCount (List.filter (trimsTo node) seen)
  /\ CountedHTMLElement.clickCount c
     = sumCount (List.filter (fun r => trimsTo node r && negb (isRageclick r)) seen)
  /\ CountedHTMLElement.rageclickCount c
     = sumCount (List.filter (fun r => trimsTo node r && isRageclick r) seen).

(** The invariant of the [forEach] of [countedElements]. *)
Definition aggregated (seen : list (ResolvedElement.t HTMLElement))
    (m : list (HTMLElement * CountedHTMLElement.t HTMLElement ActionStepType)) : Prop :=
  NoDup (map fst m)
  /\ forall node,
       match Map_get m node with
       | Some c => settled seen node c
       | None => List.filter (trimsTo node) seen = []
       end.

(** The order [countedElements] leaves its entries in: counts descending. *)
Definition descending
    (a b : CountedHTMLElement.t HTMLElement ActionStepType) : Prop :=
  CountedHTMLElement.count b <= CountedHTMLElement.count a.

End Elements.

(** ** The element-stats loader *)

Module CommonFilters.
Record t := mk { date_from : option string; date_to : option string }.
End CommonFilters.

(** The parsed body of a response ([await response.json()]): [results] is
    [None] when the body has no array under that key. *)
Module PaginatedResults.
Record t := mk {
  results : option (list ElementsEventType.t);
  next : Token;
  previous : Token
}.
End PaginatedResults.

(** What [toolbarFetch] resolves to; [json] is [None] when parsing throws. *)
Module Response.
Record t := mk { status : Z; json : option PaginatedResults.t }.
End Response.

(** The state of the logic: its reducers and the values of its two loaders. *)
Module State.
Record t := mk {
  matchLinksByHref : bool;
  canLoadMoreElementStats : bool;
  heatmapEnabled : bool;
  shiftPressed : bool;
  commonFilters : CommonFilters.t;
  heatmapFilters : HeatmapFilters.t;
  clickmapsEnabled : bool;
  heatmapScrollY : float;
  heatmapFixedPositionMode : HeatmapFixedPositionMode;
  elementStats : option PaginatedResponse.t;
  rawHeatmap : option HeatmapResponseType
}.
End State.

(** The calls a loader makes to the outside. *)
Inductive Effect :=
| toolbarFetch (url method urlConstruction : string)
| authenticate.

(** How a run of an async loader ends: it returns a value, it throws, or a
    [breakpoint()] finds that a later call has superseded it. *)
Inductive Outcome :=
| Returned (elementStats : PaginatedResponse.t)
| Thrown (message : string)
| Superseded.

Definition is_authenticate (e : Effect) : bool :=
  match e with
  | authenticate => true
  | _ => false
  end.

Definition is_null (t : Token) : bool :=
  match t with
  | null => true
  | _ => false
  end.

Definition truthy_token (t : Token) : bool :=
  match t with
  | token url => truthy url
  | _ => false
  end.

Definition token_string (t : Token) : string :=
  match t with
  | token url => url
  | _ => ""
  end.

Section Loader.

(** The template literal [`/api/element/stats/${encodeParams(...)}`], from
    [href], [wildcardHref] and the common filters; the encoding itself
    ([encodeParams] of kea-router, [escapeRegex]) is not part of this file. *)
Variable elementStatsUrl : string -> string -> CommonFilters.t -> string.

(** The loader [getElementStats]: [response] is what the awaited
    [toolbarFetch] resolves to and [superseded] what [breakpoint()] finds. *)
Definition getElementStats (href wildcardHref : string) (values : State.t)
    (url : Token) (response : Response.t) (superseded : bool)
  : list Effect * Outcome :=
  let defaultUrl :=
    if negb (truthy_token url)
    then elementStatsUrl href wildcardHref (State.commonFilters values)
    else "" in
  let fetch :=
    toolbarFetch (if truthy_token url then token_string url else defaultUrl) "GET"
      (if truthy_token url then "use-as-provided" else "full") in
  if Response.status response =? 403
  then ([fetch; authenticate], Returned emptyElementsStatsPages)
  else
    match Response.json response with
    | None => ([fetch], Thrown "SyntaxError")
    | Some paginatedResults =>
        if superseded then ([fetch], Superseded)
        else
          match PaginatedResults.results paginatedResults with
          | None => ([fetch], Thrown "Error loading HeatMap data!")
          | Some results =>
              ([fetch],
               Returned
                 (PaginatedResponse.mk
                    (PaginatedResults.next paginatedResults)
                    (PaginatedResults.previous paginatedResults)
                    (match State.elementStats values with
                     | Some stats => PaginatedResponse.results stats
                     | None => []
                     end ++ results)))
          end
    end.

End Loader.

(** The reducers on [getElementStatsSuccess], which kea-loaders dispatches
    with the value a loader returns and which stores that value. *)
Definition getElementStatsSuccess (state : State.t)
    (elementStats : PaginatedResponse.t) : State.t :=
  State.mk
    (State.matchLinksByHref state)
    (negb (is_null (PaginatedResponse.next elementStats)))
    (State.heatmapEnabled state)
    (State.shiftPressed state)
    (State.commonFilters state)
    (State.heatmapFilters state)
    (State.clickmapsEnabled state)
    (State.heatmapScrollY state)
    (State.heatmapFixedPositionMode state)
    (Some elementStats)
    (State.rawHeatmap state).

(** The reducers on [getElementStatsFailure], dispatched when a loader throws. *)
Definition getElementStatsFailure (state : State.t) : State.t :=
  State.mk
    (State.matchLinksByHref state)
    true
    false
    (State.shiftPressed state)
    (State.commonFilters state)
    (State.heatmapFilters state)
    (State.clickmapsEnabled state)
    (State.heatmapScrollY state)
    (State.heatmapFixedPositionMode state)
    (State.elementStats state)
    (State.rawHeatmap state).

(** The state after a run of [getElementStats] has ended. *)
Definition settle (state : State.t) (outcome : Outcome) : State.t :=
  match outcome with
  | Returned elementStats => getElementStatsSuccess state elementStats
  | Thrown _ => getElementStatsFailure state
  | Superseded => state
  end.

(** ** A small page for the examples

    Nodes are numbered; the page is the table of what each selector matches
    ([None]: the query throws; a selector not in the table matches nothing).
    The selector of a descriptor is its tag name followed by its classes. *)

Definition pageSelector (e : ElementType.t) (dataAttributes : list string)
  : option string :=
  Some (ElementType.tag_name e
        +:+ String.concat ""
              (map (fun c => "." +:+ c) (default [] (ElementType.attr_class e)))).

(** The same, but throwing on a descriptor without a tag name. *)
Definition throwingSelector (e : ElementType.t) (dataAttributes : list string)
  : option string :=
  if truthy (ElementType.tag_name e) then pageSelector e dataAttributes else None.

Definition pageQuery (selector : string)
    (document : list (string * option (list nat))) (pageElements : list nat)
  : option (list nat) :=
  default (Some []) (Map_get document selector).

Definition pageCollect (document : list (string * option (list nat))) : list nat :=
  [].

(** [<svg>] as a first child without any attribute, [<a class="link">],
    [<button class="save">] and [<li>]. *)
Definition svgElement : ElementType.t :=
  ElementType.mk "svg" None None None None (Some 1) (Some 1) ∅.

Definition linkElement : ElementType.t :=
  ElementType.mk "a" (Some ["link"]) None (Some "/docs") (Some "Docs") (Some 2)
    (Some 1) ∅.

Definition buttonElement : ElementType.t :=
  ElementType.mk "button" (Some ["save"]) None None None (Some 1) (Some 1) ∅.

Definition itemElement : ElementType.t :=
  ElementType.mk "li" None None None None (Some 3) (Some 3) ∅.

(** A custom element [<constructor>] as a second child, and a descriptor
    that has lost its tag name. *)
Definition constructorElement : ElementType.t :=
  ElementType.mk "constructor" None None None None (Some 2) (Some 1) ∅.

Definition namelessElement : ElementType.t :=
  ElementType.mk "" None None None None (Some 1) (Some 1) ∅.

(** [trimElement] on the numbered nodes: node 0 has no meaningful ancestor,
    any other node [n] trims to node [n / 10]. *)
Definition pageTrim (n : nat) : option nat :=
  if Nat.eqb n 0 then None else Some (Nat.div n 10).

(** The URL the examples stand for [encodeParams]. *)
Definition pageStatsUrl (href wildcardHref : string) (filters : CommonFilters.t)
  : string :=
  "/api/element/stats/?paginate_response=true".

(** A state with one page of element stats already loaded. *)
Definition loadedState : State.t :=
  State.mk false true true false (CommonFilters.mk None None)
    (HeatmapFilters.mk true (Some "click") (Some (9 # 10)%Q) (Some "total_count"))
    true 0%float fixed
    (Some (PaginatedResponse.mk (token "/api/element/stats/?cursor=2") null
             [ElementsEventType.mk 5 [linkElement] "h1" "$autocapture"]))
    None.

(** * Properties *)

(** ** Rounding *)

Lemma Math_round_int (z : Z) : Math_round (inject_Z z) = z.
Proof.
  unfold Math_round, Qplus, inject_Z, Qfloor; simpl.
  symmetry. apply (Z.div_unique _ _ _ 1); lia.
Qed.


Lemma Math_round_comp (p q : Q) : (p == q)%Q -> Math_round p = Math_round q.
Proof. intros E. unfold Math_round. apply Qfloor_comp. by rewrite E. Qed.

(** [Math_round_double] is [Math_round] of the rational that a finite double
    denotes. *)
Lemma Math_round_double_value (x : float) (s : bool) (m : positive) (e : Z) :
  FloatOps.Prim2SF x = SpecFloat.S754_finite s m e ->
  Math_round_double x
  = Integer (Math_round (inject_Z (if s then Z.neg m else Z.pos m) * Qpower 2 e)).
Proof.
  intros H. unfold Math_round_double. rewrite H. f_equal.
  set (n := if s then Z.neg m else Z.pos m). cbv zeta.
  destruct (Z.leb_spec 0 e) as [He|He].
  - rewrite <- (Math_round_int (n * 2 ^ e)). apply Math_round_comp.
    rewrite inject_Z_mult, Zpower_Qpower by exact He. reflexivity.
  - destruct e as [|p|p]; try lia.
    change (- Z.neg p) with (Z.pos p).
    assert (Hpos : 0 < 2 ^ Z.pos p) by (apply Z.pow_pos_nonneg; lia).
    assert (E : (inject_Z n * Qpower 2 (Z.neg p) + (1 # 2)
                 == (2 * n + 2 ^ Z.pos p) # Z.to_pos (2 ^ (Z.pos p + 1)))%Q).
    { change (Qpower 2 (Z.neg p)) with (/ Qpower 2 (Z.pos p))%Q.
      rewrite <- (Zpower_Qpower 2 (Z.pos p)) by lia.
      rewrite (Qmake_Qdiv (2 * n + 2 ^ Z.pos p)).
      rewrite Z2Pos.id by (apply Z.pow_pos_nonneg; lia).
      rewrite Z.pow_add_r, Z.pow_1_r by lia.
      rewrite !inject_Z_plus, !inject_Z_mult.
      assert (Hq : ~ (inject_Z (2 ^ Z.pos p) == 0)%Q).
      { change 0%Q with (inject_Z 0). rewrite inject_Z_injective. lia. }
      field. exact Hq. }
    unfold Math_round. rewrite (Qfloor_comp _ _ E). unfold Qfloor.
    rewrite Z2Pos.id by (apply Z.pow_pos_nonneg; lia). reflexivity.
Qed.

(** A half rounds towards plus infinity, also below zero; the double just
    under 0.5 rounds to 0; NaN and the infinities come back as they are. *)
Example Math_round_double_examples :
  Math_round_double 2.5%float = Integer 3
  /\ Math_round_double (-2.5)%float = Integer (-2)
  /\ Math_round_double (-0.5)%float = Integer 0
  /\ Math_round_double 0x1.fffffffffffffp-2%float = Integer 0
  /\ Math_round_double 899.49999999999989%float = Integer 899
  /\ Math_round_double 0x1p+60%float = Integer (2 ^ 60)
  /\ Math_round_double PrimFloat.nan = NotFinite PrimFloat.nan
  /\ Math_round_double PrimFloat.neg_infinity = NotFinite PrimFloat.neg_infinity.
Proof. repeat split; vm_compute; reflexivity. Qed.

(** The product of zero and a finite double is a zero, of either sign. *)
Lemma Math_round_double_zero_mul (w : float) :
  Number_isFinite w = true -> Math_round_double (PrimFloat.mul 0%float w) = Integer 0.
Proof.
  unfold Number_isFinite, Math_round_double. intros Hw.
  rewrite FloatAxioms.mul_spec.
  change (FloatOps.Prim2SF 0%float) with (SpecFloat.S754_zero false).
  unfold FloatAxioms.SF64mul, SpecFloat.SFmul.
  destruct (FloatOps.Prim2SF w); try discriminate; reflexivity.
Qed.

(** ** The heatmap projector *)

Lemma heatmapElements_map (raw : HeatmapResponseType) :
  heatmapElements (Some raw) = map heatmapElement_of (results raw).
Proof.
  unfold heatmapElements.
  enough (G : forall l acc,
             fold_left (fun elements element => elements ++ [heatmapElement_of element]) l acc
             = acc ++ map heatmapElement_of l) by apply (G _ []).
  induction l as [|r l IH]; intros acc; simpl.
  - by rewrite app_nil_r.
  - rewrite IH, <- app_assoc. reflexivity.
Qed.

Lemma heatmapJsData_step_acc (s w : float) (m : HeatmapFixedPositionMode)
    (acc : list HeatmapJsDataPoint.t) (e : HeatmapElement.t) :
  heatmapJsData_step s w m acc e = acc ++ heatmapJsData_step s w m [] e.
Proof.
  unfold heatmapJsData_step.
  destruct (is_hidden m && HeatmapElement.targetFixed e); simpl.
  - by rewrite app_nil_r.
  - reflexivity.
Qed.

Lemma heatmapJsData_fold (s w : float) (m : HeatmapFixedPositionMode)
    (l : list HeatmapElement.t) (acc : list HeatmapJsDataPoint.t) :
  fold_left (heatmapJsData_step s w m) l acc
  = acc ++ flat_map (heatmapJsData_step s w m []) l.
Proof.
  revert acc. induction l as [|e l IH]; intros acc; simpl.
  - by rewrite app_nil_r.
  - rewrite IH, (heatmapJsData_step_acc s w m acc e), <- app_assoc. reflexivity.
Qed.

Lemma heatmapJsData_data (l : list HeatmapElement.t) (s w : float)
    (m : HeatmapFixedPositionMode) :
  HeatmapJsData.data (heatmapJsData l s w m)
  = flat_map (heatmapJsData_step s w m []) l.
Proof. unfold heatmapJsData; simpl. apply heatmapJsData_fold. Qed.

Lemma heatmapJsData_app (l1 l2 : list HeatmapElement.t) (s w : float)
    (m : HeatmapFixedPositionMode) :
  HeatmapJsData.data (heatmapJsData (l1 ++ l2) s w m)
  = HeatmapJsData.data (heatmapJsData l1 s w m)
    ++ HeatmapJsData.data (heatmapJsData l2 s w m).
Proof. rewrite !heatmapJsData_data. apply flat_map_app. Qed.

(** The points of a list of elements around one that is not fixed-position:
    that element is never dropped, and its y is shifted by the scroll offset
    in every mode. *)
Lemma heatmapJsData_middle (l1 l2 : list HeatmapElement.t) (c : Z) (xp ey : float)
    (s w : float) (m : HeatmapFixedPositionMode) :
  HeatmapJsData.data (heatmapJsData (l1 ++ HeatmapElement.mk c xp false ey :: l2) s w m)
  = HeatmapJsData.data (heatmapJsData l1 s w m)
    ++ HeatmapJsDataPoint.mk (Math_round_double (PrimFloat.mul xp w))
         (Math_round_double (PrimFloat.sub ey s)) c
       :: HeatmapJsData.data (heatmapJsData l2 s w m).
Proof.
  rewrite heatmapJsData_app.
  change (?h :: ?t) with ([h] ++ t) at 1. rewrite heatmapJsData_app.
  f_equal. rewrite (heatmapJsData_data [_]); simpl.
  unfold heatmapJsData_step; simpl.
  rewrite andb_false_r; simpl. reflexivity.
Qed.

(** C3 (as amended).  For every list of heatmap elements and every render
    context, [heatmapJsData] emits, in order, no point for an element whose
    target is fixed-position when the mode is [hidden] and exactly one point
    for every other element, with x = round(xPercentage * window width),
    value = the element's count, and y = round(raw y) when the target is
    fixed-position and the mode is [fixed], otherwise
    round(raw y - scroll offset): [Math.round] is applied to y as it is to x,
    and the product and the difference are those of binary64. *)
Theorem heatmapJsData_points (l : list HeatmapElement.t) (s w : float)
    (m : HeatmapFixedPositionMode) :
  HeatmapJsData.data (heatmapJsData l s w m)
  = flat_map
      (fun e =>
         if is_hidden m && HeatmapElement.targetFixed e then []
         else [HeatmapJsDataPoint.mk
                 (Math_round_double (PrimFloat.mul (HeatmapElement.xPercentage e) w))
                 (Math_round_double
                    (if HeatmapElement.targetFixed e && is_fixed m
                     then HeatmapElement.y e
                     else PrimFloat.sub (HeatmapElement.y e) s))
                 (HeatmapElement.count e)])
      l.
Proof. apply heatmapJsData_data. Qed.

(** C3, counterexample to the claim as first stated (y = raw y minus the
    scroll offset): at scroll offset 0.5 the point of a non-fixed element with
    raw y 10 has y = round(9.5) = 10, and 10 - 0.5 is not 10. *)
Lemma heatmapJsData_y_is_rounded :
  HeatmapJsData.data
    (heatmapJsData [HeatmapElement.mk 3 0.5%float false 10%float] 0.5%float 1200%float
       relative)
  = [HeatmapJsDataPoint.mk (Integer 600) (Integer 10) 3]
  /\ PrimFloat.sub 10%float 0.5%float = 9.5%float
  /\ PrimFloat.eqb 9.5%float 10%float = false.
Proof. repeat split; vm_compute; reflexivity. Qed.

(** The x of a point is the rounded binary64 product: the double 0.03 is a
    little below 3/100, yet its product with 1050 is the double 31.5, and x is
    32. *)
Example heatmapJsData_x_binary64 :
  PrimFloat.mul 0.03%float 1050%float = 31.5%float
  /\ HeatmapJsData.data
       (heatmapJsData
          [HeatmapElement.mk 1 0.03%float false 0%float;
           HeatmapElement.mk 2 0.35%float true 40%float]
          0%float 1050%float fixed)
     = [HeatmapJsDataPoint.mk (Integer 32) (Integer 0) 1;
        HeatmapJsDataPoint.mk (Integer 368) (Integer 40) 2].
Proof. split; vm_compute; reflexivity. Qed.

(** C4 (as amended).  In every response and every render context with a
    finite window width, a scroll-depth record yields the heatmap element
    whose y is the record's bucket threshold, whose xPercentage is 0 and whose
    count is the cumulative count; the point [heatmapJsData] emits for it, in
    every display mode, [hidden] included, has x = 0, value = the cumulative
    count and y = round(threshold - scroll offset), not the threshold. *)
Theorem scroll_depth_projection (pre post : list HeatmapResult) (b : float) (c : Z)
    (s w : float) (m : HeatmapFixedPositionMode) :
  Number_isFinite w = true ->
  let raw := {| results := pre ++ ScrollDepthResult b c :: post |} in
  heatmapElements (Some raw)
  = heatmapElements (Some {| results := pre |})
    ++ HeatmapElement.mk c 0%float false b :: heatmapElements (Some {| results := post |})
  /\ HeatmapJsData.data (heatmapJsData (heatmapElements (Some raw)) s w m)
     = HeatmapJsData.data
         (heatmapJsData (heatmapElements (Some {| results := pre |})) s w m)
       ++ HeatmapJsDataPoint.mk (Integer 0) (Math_round_double (PrimFloat.sub b s)) c
          :: HeatmapJsData.data
               (heatmapJsData (heatmapElements (Some {| results := post |})) s w m).
Proof.
  intros Hw.
  assert (E : heatmapElements (Some {| results := pre ++ ScrollDepthResult b c :: post |})
              = heatmapElements (Some {| results := pre |})
                ++ HeatmapElement.mk c 0%float false b
                   :: heatmapElements (Some {| results := post |})).
  { rewrite !heatmapElements_map; simpl. rewrite map_app. reflexivity. }
  cbv zeta. split; [exact E |].
  rewrite E, heatmapJsData_middle, (Math_round_double_zero_mul w Hw). reflexivity.
Qed.

(** C4, witness: the record with threshold 500 between two pointer records,
    at scroll offset 100 in [hidden] mode. *)
Lemma scroll_depth_projection_witness :
  let pre := [PointerResult 3 0.5%float 10%float true] in
  let post := [PointerResult 2 0.25%float 700%float false] in
  let raw := {| results := pre ++ ScrollDepthResult 500%float 7 :: post |} in
  heatmapElements (Some raw)
  = heatmapElements (Some {| results := pre |})
    ++ HeatmapElement.mk 7 0%float false 500%float
       :: heatmapElements (Some {| results := post |})
  /\ HeatmapJsData.data
       (heatmapJsData (heatmapElements (Some raw)) 100%float 1200%float hidden)
     = HeatmapJsData.data
         (heatmapJsData (heatmapElements (Some {| results := pre |})) 100%float
            1200%float hidden)
       ++ HeatmapJsDataPoint.mk (Integer 0)
            (Math_round_double (PrimFloat.sub 500%float 100%float)) 7
          :: HeatmapJsData.data
               (heatmapJsData (heatmapElements (Some {| results := post |})) 100%float
                  1200%float hidden).
Proof.
  apply (scroll_depth_projection
           [PointerResult 3 0.5%float 10%float true]
           [PointerResult 2 0.25%float 700%float false]
           500%float 7 100%float 1200%float hidden).
  vm_compute. reflexivity.
Defined.

(** C4, counterexample to the claim as first stated (y = the bucket
    threshold in every render context): at scroll offset 100 the point of the
    record with threshold 500 has y = 400. *)
Lemma scroll_depth_y_is_shifted :
  HeatmapJsData.data
    (heatmapJsData
       (heatmapElements (Some {| results := [ScrollDepthResult 500%float 7] |}))
       100%float 1200%float fixed)
  = [HeatmapJsDataPoint.mk (Integer 0) (Integer 400) 7]
  /\ Math_round_double 500%float = Integer 500
  /\ Integer 400 <> Integer 500.
Proof. repeat split; [vm_compute; reflexivity .. | discriminate]. Qed.

(** C10.  The heatmap element that [heatmapElements] derives from a
    scroll-depth record (the element at the record's index) has
    xPercentage = 0 and targetFixed = false; therefore, in every render
    context and every mode, [hidden] included, the points of [heatmapJsData]
    are the points of the elements before it, then its own point, whose y is
    round(element y - scroll offset), then the points of the elements after
    it. *)
Theorem scroll_depth_element_not_fixed (raw : HeatmapResponseType) (i : nat)
    (b : float) (c : Z) :
  results raw !! i = Some (ScrollDepthResult b c) ->
  exists e,
    heatmapElements (Some raw) !! i = Some e
    /\ HeatmapElement.xPercentage e = 0%float
    /\ HeatmapElement.targetFixed e = false
    /\ forall (s w : float) (m : HeatmapFixedPositionMode),
         HeatmapJsData.data (heatmapJsData (heatmapElements (Some raw)) s w m)
         = HeatmapJsData.data
             (heatmapJsData (take i (heatmapElements (Some raw))) s w m)
           ++ HeatmapJsDataPoint.mk
                (Math_round_double (PrimFloat.mul 0%float w))
                (Math_round_double (PrimFloat.sub (HeatmapElement.y e) s))
                (HeatmapElement.count e)
              :: HeatmapJsData.data
                   (heatmapJsData (drop (S i) (heatmapElements (Some raw))) s w m).
Proof.
  intros Hi.
  assert (He : heatmapElements (Some raw) !! i = Some (HeatmapElement.mk c 0%float false b)).
  { rewrite heatmapElements_map, list_lookup_fmap, Hi. reflexivity. }
  exists (HeatmapElement.mk c 0%float false b).
  split; [exact He | split; [reflexivity | split; [reflexivity |]]].
  intros s w m.
  rewrite <- (take_drop_middle _ _ _ He) at 1.
  apply heatmapJsData_middle.
Qed.

Lemma scroll_depth_element_not_fixed_witness :
  let raw :=
    {| results := [PointerResult 3 0.5%float 10%float true; ScrollDepthResult 500%float 7] |} in
  exists e,
    heatmapElements (Some raw) !! 1%nat = Some e
    /\ HeatmapElement.xPercentage e = 0%float
    /\ HeatmapElement.targetFixed e = false
    /\ forall (s w : float) (m : HeatmapFixedPositionMode),
         HeatmapJsData.data (heatmapJsData (heatmapElements (Some raw)) s w m)
         = HeatmapJsData.data
             (heatmapJsData (take 1 (heatmapElements (Some raw))) s w m)
           ++ HeatmapJsDataPoint.mk
                (Math_round_double (PrimFloat.mul 0%float w))
                (Math_round_double (PrimFloat.sub (HeatmapElement.y e) s))
                (HeatmapElement.count e)
              :: HeatmapJsData.data
                   (heatmapJsData (drop 2 (heatmapElements (Some raw))) s w m).
Proof.
  apply (scroll_depth_element_not_fixed
           {| results := [PointerResult 3 0.5%float 10%float true;
                          ScrollDepthResult 500%float 7] |}
           1 500%float 7).
  reflexivity.
Defined.

(** In [hidden] mode the fixed-position pointer record is dropped and the
    scroll-depth record after it is kept. *)
Example scroll_depth_point_survives_hidden :
  HeatmapJsData.data
    (heatmapJsData
       (heatmapElements
          (Some {| results := [PointerResult 3 0.5%float 10%float true;
                               ScrollDepthResult 500%float 7] |}))
       120.5%float 1200%float hidden)
  = [HeatmapJsDataPoint.mk (Integer 0) (Integer 380) 7].
Proof. vm_compute. reflexivity. Qed.

(** ** The viewport range *)

Lemma Math_max_comp (a b b' : Q) : (b == b')%Q -> (Math_max a b == Math_max a b')%Q.
Proof.
  intros E. unfold Math_max.
  destruct (Qle_bool a b) eqn:H, (Qle_bool a b') eqn:H'; try reflexivity; try exact E.
  - apply Qle_bool_iff in H. rewrite E in H. apply Qle_bool_iff in H. congruence.
  - apply Qle_bool_iff in H'. rewrite <- E in H'. apply Qle_bool_iff in H'. congruence.
Qed.


(** Over the rationals the range is that of the formula
    extraPixels = windowWidth * (1 - accuracy). *)
Lemma viewportRange_exact (w : Z) (a : Q) (en : bool) (ty ag : option string) :
  let f := HeatmapFilters.mk en ty (Some a) ag in
  let extra := (inject_Z w * (1 - a))%Q in
  (extraPixels f w == extra)%Q
  /\ ViewportRange.min (viewportRange f w) = Math_round (Math_max 0 (inject_Z w - extra))
  /\ ViewportRange.max (viewportRange f w) = Math_round (inject_Z w + extra).
Proof.
  cbv zeta.
  assert (E : (extraPixels (HeatmapFilters.mk en ty (Some a) ag) w
               == inject_Z w * (1 - a))%Q).
  { unfold extraPixels; simpl. ring. }
  split; [exact E | split].
  - unfold viewportRange; simpl. apply Math_round_comp, Math_max_comp.
    by rewrite E.
  - unfold viewportRange; simpl. apply Math_round_comp. by rewrite E.
Qed.

(** The binary64 range against the range over the rationals and against the
    width, on every integral width up to 2000 and every accuracy in tenths. *)
Lemma ranges_agree_sample :
  forallb (fun w => forallb (ranges_agree w) (seq 0 11)) (seq 0 (S 2000)) = true.
Proof. vm_compute. reflexivity. Qed.

Lemma ranges_agree_at (w k : nat) :
  (w <= 2000)%nat -> (k <= 10)%nat -> ranges_agree w k = true.
Proof.
  intros Hw Hk. pose proof ranges_agree_sample as Hall.
  rewrite forallb_forall in Hall.
  assert (Hin : In w (seq 0 (S 2000))) by (apply in_seq; lia).
  specialize (Hall w Hin). rewrite forallb_forall in Hall.
  apply Hall, in_seq. lia.
Qed.

(** C7 (as amended).  For every window width and viewport accuracy, as
    doubles, the derived range is computed in binary64 with
    extraPixels = windowWidth - windowWidth * accuracy,
    min = round(max(0, windowWidth - extraPixels)) and
    max = round(windowWidth + extraPixels), an absent accuracy counting as
    0.2; window width 1000 gives extraPixels 100, min 900 and max 1100 at
    accuracy 0.9, and extraPixels 800, min 200 and max 1800 at accuracy 0.2;
    and for every integral width up to 2000 and every accuracy in tenths
    from 0 to 1, min and max are within one of the values of the formula
    extraPixels = windowWidth * (1 - accuracy) over the rationals. *)
Theorem viewportRange_formula :
  (forall a w : float,
      extraPixels_double (Some a) w = PrimFloat.sub w (PrimFloat.mul w a)
      /\ ViewportRange_double.min (viewportRange_double (Some a) w)
         = Math_round_double
             (Math_max_double 0%float
                (PrimFloat.sub w (PrimFloat.sub w (PrimFloat.mul w a))))
      /\ ViewportRange_double.max (viewportRange_double (Some a) w)
         = Math_round_double (PrimFloat.add w (PrimFloat.sub w (PrimFloat.mul w a)))
      /\ viewportRange_double None w = viewportRange_double (Some 0.2%float) w)
  /\ extraPixels_double (Some 0.9%float) 1000%float = 100%float
  /\ viewportRange_double (Some 0.9%float) 1000%float
     = ViewportRange_double.mk (Integer 1100) (Integer 900)
  /\ extraPixels_double (Some 0.2%float) 1000%float = 800%float
  /\ viewportRange_double (Some 0.2%float) 1000%float
     = ViewportRange_double.mk (Integer 1800) (Integer 200)
  /\ (forall w k : nat,
        (w <= 2000)%nat -> (k <= 10)%nat ->
        let exact :=
          viewportRange (HeatmapFilters.mk true None (Some (Z.of_nat k # 10)) None)
            (Z.of_nat w) in
        let double := viewportRange_double (Some (tenths k)) (double_of_nat w) in
        exists lo hi,
          ViewportRange_double.min double = Integer lo
          /\ ViewportRange_double.max double = Integer hi
          /\ Z.abs (lo - ViewportRange.min exact) <= 1
          /\ Z.abs (hi - ViewportRange.max exact) <= 1
          /\ ViewportRange.min exact
             = Math_round
                 (Math_max 0
                    (inject_Z (Z.of_nat w)
                     - inject_Z (Z.of_nat w) * (1 - (Z.of_nat k # 10))))
          /\ ViewportRange.max exact
             = Math_round
                 (inject_Z (Z.of_nat w)
                  + inject_Z (Z.of_nat w) * (1 - (Z.of_nat k # 10)))).
Proof.
  split; [intros a w; repeat split |].
  repeat (split; [vm_compute; reflexivity |]).
  intros w k Hw Hk. cbv zeta.
  pose proof (ranges_agree_at w k Hw Hk) as Hall. unfold ranges_agree in Hall.
  apply andb_true_iff in Hall as [Hall _].
  apply andb_true_iff in Hall as [Hlo Hhi].
  destruct (ViewportRange_double.min _) as [lo|]; [| discriminate].
  destruct (ViewportRange_double.max _) as [hi|]; [| discriminate].
  exists lo, hi. unfold within_one in Hlo, Hhi.
  apply Z.leb_le in Hlo, Hhi.
  destruct (viewportRange_exact (Z.of_nat w) (Z.of_nat k # 10) true None None)
    as (_ & Hmin & Hmax).
  repeat split; assumption.
Qed.

(** C7, counterexample to the claim as first stated
    (extraPixels = windowWidth * (1 - accuracy)): at width 1285 and accuracy
    0.7 the code has extraPixels = 385.50000000000011, the product
    1285 * (1 - 0.7) is 385.50000000000006, and min is 899 where the formula
    gives 900 over the rationals. *)
Lemma viewportRange_rounding_error :
  extraPixels_double (Some 0.7%float) 1285%float = 0x1.8180000000002p+8%float
  /\ PrimFloat.mul 1285%float (PrimFloat.sub 1%float 0.7%float)
     = 0x1.8180000000001p+8%float
  /\ PrimFloat.eqb (extraPixels_double (Some 0.7%float) 1285%float)
       (PrimFloat.mul 1285%float (PrimFloat.sub 1%float 0.7%float))
     = false
  /\ viewportRange_double (Some 0.7%float) 1285%float
     = ViewportRange_double.mk (Integer 1671) (Integer 899)
  /\ viewportRange (HeatmapFilters.mk true None (Some (7 # 10)%Q) None) 1285
     = ViewportRange.mk 1671 900.
Proof. repeat split; vm_compute; reflexivity. Qed.




(** Outside that domain the range can miss the width: an accuracy of 2 turns
    [extraPixels] negative. *)
Example viewportRange_accuracy_above_one :
  viewportRange (HeatmapFilters.mk true (Some "click") (Some 2%Q) None) 1000
  = ViewportRange.mk 0 2000.
Proof. reflexivity. Qed.

(** In binary64 as over the rationals, the range contains the window width
    on the sample: every integral width up to 2000 with every accuracy in
    tenths from 0 to 1. *)
Lemma viewportRange_double_contains_width (w k : nat) :
  (w <= 2000)%nat -> (k <= 10)%nat ->
  exists lo hi,
    viewportRange_double (Some (tenths k)) (double_of_nat w)
    = ViewportRange_double.mk (Integer hi) (Integer lo)
    /\ lo <= Z.of_nat w <= hi.
Proof.
  intros Hw Hk.
  pose proof (ranges_agree_at w k Hw Hk) as Hall. unfold ranges_agree in Hall.
  apply andb_true_iff in Hall as [_ Hin].
  destruct (viewportRange_double _ _) as [[hi|] [lo|]]; try discriminate.
  exists lo, hi. split; [reflexivity |].
  simpl in Hin. apply andb_true_iff in Hin as [H1 H2].
  apply Z.leb_le in H1, H2. lia.
Qed.

(** Three ranges as the code computes them; the last with the default
    accuracy. *)
Example viewportRange_double_sample :
  viewportRange_double (Some 0.7%float) 1285%float
  = ViewportRange_double.mk (Integer 1671) (Integer 899)
  /\ viewportRange_double (Some 0.9%float) 1005%float
     = ViewportRange_double.mk (Integer 1106) (Integer 905)
  /\ viewportRange_double None 1440%float
     = ViewportRange_double.mk (Integer 2592) (Integer 288).
Proof. repeat split; vm_compute; reflexivity. Qed.

(** ** The selector resolver *)

Lemma append_assoc (a b c : string) : (a +:+ b) +:+ c = a +:+ b +:+ c.
Proof.
  induction a as [|x a IH]; [reflexivity |].
  change (String x ((a +:+ b) +:+ c) = String x (a +:+ b +:+ c)). by f_equal.
Qed.

Lemma truthy_append (p s : string) : truthy s = true -> truthy (p +:+ s) = true.
Proof. destruct p; [done | reflexivity]. Qed.

Lemma truthy_widened (i : nat) (s0 : string) :
  truthy s0 = true -> truthy (widened i s0) = true.
Proof. intros H. destruct i; [exact H | reflexivity]. Qed.

(** A combined selector is the name of no member of [Object.prototype]. *)
Lemma has_space_combined (a b : string) : has_space (a +:+ " > " +:+ b) = true.
Proof.
  induction a as [|x a IH]; [reflexivity |].
  change (Ascii.eqb x " " || has_space (a +:+ " > " +:+ b) = true).
  rewrite IH. apply orb_true_r.
Qed.

Lemma Object_prototype_space (key : string) :
  has_space key = true -> Object_prototype key = None.
Proof.
  intros H. unfold Object_prototype. cbn [existsb].
  repeat match goal with
         | |- context [String.eqb key ?k] =>
             destruct (String.eqb_spec key k) as [E|_];
             [rewrite E in H; vm_compute in H; discriminate H |]
         end.
  reflexivity.
Qed.

Lemma Object_prototype_combined (a b : string) :
  Object_prototype (a +:+ " > " +:+ b) = None.
Proof. apply Object_prototype_space, has_space_combined. Qed.

Section ResolverFacts.

Context {HTMLElement : Type} `{EqDecision HTMLElement} {Document : Type}.
Variable elementToSelector : ElementType.t -> list string -> option string.
Variable collectAllElementsDeep : Document -> list HTMLElement.
Variable querySelectorAllDeep :
  string -> Document -> list HTMLElement -> option (list HTMLElement).
Variable document : Document.
Variable dataAttributes : list string.
Variable matchLinksByHref : bool.

Local Abbreviation domElementsOf' := (domElementsOf querySelectorAllDeep document).
Local Abbreviation coherent' := (coherent querySelectorAllDeep document).
Local Abbreviation selectorOf' := (selectorOf elementToSelector dataAttributes matchLinksByHref).
Local Abbreviation constructible' :=
  (constructible elementToSelector dataAttributes matchLinksByHref).
Local Abbreviation matchFrom' :=
  (matchFrom elementToSelector querySelectorAllDeep document dataAttributes
     matchLinksByHref).
Local Abbreviation matchEvent' :=
  (matchEvent elementToSelector querySelectorAllDeep document dataAttributes
     matchLinksByHref).
Local Abbreviation pushMatch' :=
  (pushMatch elementToSelector querySelectorAllDeep document dataAttributes
     matchLinksByHref).
Local Abbreviation elements' :=
  (elements elementToSelector collectAllElementsDeep querySelectorAllDeep document).

(** The memoised query keeps the cache coherent and its page snapshot in
    place; on a coherent cache an array it yields is what the query returns. *)
Lemma domElementsOf_sound cache selector domElements cache' :
  coherent' cache ->
  domElementsOf' cache selector = Some (domElements, cache') ->
  coherent' cache'
  /\ Cache.pageElements cache' = Cache.pageElements cache
  /\ match domElements with
     | elementsArray l =>
         querySelectorAllDeep selector document (Cache.pageElements cache) = Some l
     | prototypeMember n => Object_prototype selector = Some n
     end.
Proof.
  intros Hc. unfold domElementsOf.
  destruct (Cache.selectorToElements cache !! selector) as [l|] eqn:Hm.
  - intros [= <- <-]. auto.
  - destruct (Object_prototype selector) as [n|] eqn:Hp.
    + intros [= <- <-]. auto.
    + destruct (querySelectorAllDeep selector document (Cache.pageElements cache))
        as [l|] eqn:Hq; [| discriminate].
      intros [= <- <-]. split; [| split; reflexivity].
      intros s l'; simpl. rewrite lookup_insert.
      case_decide as Hs.
      * intros [= <-]. by subst s.
      * apply Hc.
Qed.

(** On a coherent cache a selector that names no member of
    [Object.prototype] gets the array the query returns. *)
Lemma domElementsOf_complete cache selector domElements :
  coherent' cache ->
  Object_prototype selector = None ->
  querySelectorAllDeep selector document (Cache.pageElements cache) = Some domElements ->
  exists cache', domElementsOf' cache selector = Some (elementsArray domElements, cache').
Proof.
  intros Hc Hp Hq. unfold domElementsOf.
  destruct (Cache.selectorToElements cache !! selector) as [l|] eqn:Hm.
  - apply Hc in Hm. rewrite Hq in Hm. injection Hm as <-. eauto.
  - rewrite Hp, Hq. eauto.
Qed.

(** On a coherent cache a selector that matches nothing never gets a value of
    length 1, unless it names a member of [Object.prototype] of that length. *)
Lemma domElementsOf_nothing cache selector :
  coherent' cache ->
  Object_prototype selector <> Some (Some 1%nat) ->
  querySelectorAllDeep selector document (Cache.pageElements cache) = Some [] ->
  exists domElements cache',
    domElementsOf' cache selector = Some (domElements, cache')
    /\ lengthOf domElements <> Some 1%nat.
Proof.
  intros Hc Hp Hq. unfold domElementsOf.
  destruct (Cache.selectorToElements cache !! selector) as [l|] eqn:Hm.
  - apply Hc in Hm. rewrite Hq in Hm. injection Hm as <-.
    eexists _, _. split; [reflexivity | discriminate].
  - destruct (Object_prototype selector) as [n|].
    + eexists _, _. split; [reflexivity |]. simpl. congruence.
    + rewrite Hq. eexists _, _. split; [reflexivity | discriminate].
Qed.

(** The loop keeps the cache coherent and its page snapshot in place, and no
    exception leaves it unless [elementToSelector] throws. *)
Lemma matchFrom_coherent event rest :
  forall cache i lastSelector cache' result,
    coherent' cache ->
    matchFrom' event cache i lastSelector rest = (cache', result) ->
    coherent' cache'
    /\ Cache.pageElements cache' = Cache.pageElements cache
    /\ ((forall e, e ∈ rest -> is_Some (selectorOf' e)) -> result <> Raised).
Proof.
  induction rest as [|e rest IH]; intros cache i lastSelector cache' result Hc; simpl.
  - intros [= <- <-]. auto.
  - destruct (selectorOf' e) as [selector|] eqn:Hsel.
    + destruct (domElementsOf' cache (combine selector lastSelector))
        as [[domElements cache1]|] eqn:Hd.
      * destruct (domElementsOf_sound _ _ _ _ Hc Hd) as (Hc1 & Hp1 & _).
        assert (Hk : forall last,
                   matchFrom' event cache1 (S i) last rest = (cache', result) ->
                   coherent' cache'
                   /\ Cache.pageElements cache' = Cache.pageElements cache
                   /\ ((forall e', e' ∈ e :: rest -> is_Some (selectorOf' e')) ->
                       result <> Raised)).
        { intros last Hm. destruct (IH _ _ _ _ _ Hc1 Hm) as (? & ? & Hr).
          split; [assumption | split; [congruence |]].
          intros Hall. apply Hr. intros e' He'. apply Hall. by right. }
        destruct (lengthOf domElements) as [[|[|n]]|].
        -- repeat case_match; try (intros [= <- <-]; by auto); apply Hk.
        -- repeat case_match; try (intros [= <- <-]; by auto); apply Hk.
        -- apply Hk.
        -- apply Hk.
      * intros [= <- <-]. auto.
    + intros [= <- <-]. split; [assumption | split; [reflexivity |]].
      intros Hall. destruct (Hall e) as [s Hs]; [by left |]. congruence.
Qed.

Lemma pushMatch_coherent state event :
  coherent' (fst state) ->
  coherent' (fst (pushMatch' state event))
  /\ Cache.pageElements (fst (pushMatch' state event)) = Cache.pageElements (fst state)
  /\ forall l,
       snd state = Some l ->
       (forall e, e ∈ ElementsEventType.elements event -> is_Some (selectorOf' e)) ->
       exists more, snd (pushMatch' state event) = Some (l ++ more).
Proof.
  intros Hc. unfold pushMatch.
  destruct (snd state) as [l|] eqn:Hs.
  - destruct (matchEvent' (fst state) event) as [cache' result] eqn:Hm.
    destruct (matchFrom_coherent _ _ _ _ _ _ _ Hc Hm) as (Hc' & Hp & Hr).
    destruct result as [r| |]; simpl; (split; [assumption | split; [assumption |]]).
    + intros ? [= <-] _. by exists [r].
    + intros ? [= <-] _. exists []. by rewrite app_nil_r.
    + intros ? [= <-] Hall. by destruct (Hr Hall).
  - split; [assumption | split; [reflexivity |]]. intros l Hl. congruence.
Qed.

Lemma fold_pushMatch_coherent events :
  forall state,
    coherent' (fst state) ->
    coherent' (fst (fold_left pushMatch' events state))
    /\ Cache.pageElements (fst (fold_left pushMatch' events state))
       = Cache.pageElements (fst state)
    /\ forall l,
         snd state = Some l ->
         constructible' events ->
         exists more, snd (fold_left pushMatch' events state) = Some (l ++ more).
Proof.
  induction events as [|event events IH]; intros state Hc; simpl.
  - split; [assumption | split; [reflexivity |]].
    intros l Hl _. exists []. by rewrite app_nil_r.
  - destruct (pushMatch_coherent state event Hc) as (Hc1 & Hp1 & Hs1).
    destruct (IH _ Hc1) as (Hc2 & Hp2 & Hs2).
    split; [assumption | split; [congruence |]].
    intros l Hl Hall.
    destruct (Hs1 l Hl) as [more1 Hm1].
    { intros e He. apply (Hall event e); [by left | exact He]. }
    destruct (Hs2 _ Hm1) as [more2 Hm2].
    { intros event' e He' He. apply (Hall event' e); [by right | exact He]. }
    exists (more1 ++ more2). rewrite Hm2, app_assoc. reflexivity.
Qed.

(** The first step of the loop on a path whose innermost selector has the
    single match [d]. *)
Lemma matchEvent_unique cache event e rest selector d cache' :
  ElementsEventType.elements event = e :: rest ->
  selectorOf' e = Some selector ->
  domElementsOf' cache selector = Some (elementsArray [d], cache') ->
  matchEvent' cache event
  = if tooSimple e
    then matchFrom' event cache' 1 (Some selector) rest
    else (cache',
          Resolved
            (ResolvedElement.mk (Some d) (ElementsEventType.count event) selector
               (ElementsEventType.hash event) (ElementsEventType.type event))).
Proof.
  intros He Hs Hd. unfold matchEvent. rewrite He. simpl. rewrite Hs. simpl.
  rewrite Hd. reflexivity.
Qed.

(** C1 (as amended).  Take an event of the loaded page of events whose
    innermost element's selector matches exactly one element [d] of the
    document, where the selector names no member of [Object.prototype], the
    memoised query results are those of the document, and [elementToSelector]
    throws on no path element of the page of events.  If the innermost path
    element is not maximally generic, [elements] returns [d] for the event,
    with the event's count, hash and type.  If it is maximally generic (a tag
    name, no class list, id, href or text, nth-child 1 and nth-of-type 1, no
    data attribute), the match is not accepted at that step and the loop goes
    on to the ancestors with the innermost selector as the child part of the
    next combined selector; the event produces no element when its path has
    no further element. *)
Theorem unique_innermost_match cache stats href event e rest selector d :
  let cache0 := refreshCache collectAllElementsDeep document href cache in
  let found :=
    ResolvedElement.mk (Some d) (ElementsEventType.count event) selector
      (ElementsEventType.hash event) (ElementsEventType.type event) in
  coherent' cache0 ->
  constructible' (PaginatedResponse.results stats) ->
  event ∈ PaginatedResponse.results stats ->
  ElementsEventType.elements event = e :: rest ->
  selectorOf' e = Some selector ->
  Object_prototype selector = None ->
  querySelectorAllDeep selector document (Cache.pageElements cache0) = Some [d] ->
  (tooSimple e = false ->
   exists output,
     snd (elements' cache (Some stats) dataAttributes href matchLinksByHref) = Some output
     /\ found ∈ output)
  /\ (forall c,
        coherent' c -> Cache.pageElements c = Cache.pageElements cache0 ->
        exists c',
          domElementsOf' c selector = Some (elementsArray [d], c')
          /\ matchEvent' c event
             = if tooSimple e
               then matchFrom' event c' 1 (Some selector) rest
               else (c', Resolved found))
  /\ (tooSimple e = true -> rest = [] ->
      forall c,
        coherent' c -> Cache.pageElements c = Cache.pageElements cache0 ->
        snd (matchEvent' c event) = Unresolved).
Proof.
  intros cache0 found Hc0 Hall Hin He Hsel Hproto Hq.
  assert (Hstep : forall c,
             coherent' c -> Cache.pageElements c = Cache.pageElements cache0 ->
             exists c',
               domElementsOf' c selector = Some (elementsArray [d], c')
               /\ matchEvent' c event
                  = if tooSimple e
                    then matchFrom' event c' 1 (Some selector) rest
                    else (c', Resolved found)).
  { intros c Hc Hp. rewrite <- Hp in Hq.
    destruct (domElementsOf_complete _ _ _ Hc Hproto Hq) as [c' Hd].
    exists c'. split; [exact Hd |]. by apply matchEvent_unique. }
  split; [| split; [exact Hstep |]].
  - intros Hsimple. unfold elements. fold cache0.
    apply list_elem_of_split in Hin as (pre & post & Hsplit).
    rewrite Hsplit in Hall |- *.
    assert (Hpre : constructible' pre).
    { intros event' e' H1 H2. apply (Hall event' e'); [| exact H2].
      apply elem_of_app. by left. }
    assert (Hpost : constructible' post).
    { intros event' e' H1 H2. apply (Hall event' e'); [| exact H2].
      apply elem_of_app. right. by right. }
    rewrite fold_left_app; simpl.
    destruct (fold_pushMatch_coherent pre (cache0, Some []) Hc0) as (Hc1 & Hp1 & Hs1).
    destruct (Hs1 [] eq_refl Hpre) as [l1 Hl1]. simpl in Hl1.
    set (state1 := fold_left pushMatch' pre (cache0, Some [])) in *.
    destruct (Hstep _ Hc1 Hp1) as (c' & Hd & Hm). rewrite Hsimple in Hm.
    assert (Hpush : pushMatch' state1 event = (c', Some (l1 ++ [found]))).
    { unfold pushMatch. by rewrite Hl1, Hm. }
    destruct (pushMatch_coherent state1 event Hc1) as (Hc2 & _ & _).
    destruct (fold_pushMatch_coherent post _ Hc2) as (_ & _ & Hs2).
    destruct (Hs2 (l1 ++ [found])) as [more Hmore];
      [by rewrite Hpush | exact Hpost |].
    exists ((l1 ++ [found]) ++ more). split; [exact Hmore | set_solver].
  - intros Hsimple -> c Hc Hp.
    destruct (Hstep _ Hc Hp) as (c' & _ & Hm). rewrite Hm, Hsimple. reflexivity.
Qed.

Lemma selectorOf_truthy e selector : selectorOf' e = Some selector -> truthy selector = true.
Proof.
  unfold selectorOf.
  destruct (elementToSelector _ dataAttributes) as [s|]; [| discriminate].
  intros [= <-]. destruct (truthy s) eqn:E; [exact E | reflexivity].
Qed.

(** A query that throws ends the loop at once, whatever step it has reached. *)
Lemma matchFrom_throws event cache i lastSelector e rest selector :
  selectorOf' e = Some selector ->
  domElementsOf' cache (combine selector lastSelector) = None ->
  matchFrom' event cache i lastSelector (e :: rest) = (cache, Unresolved).
Proof. intros Hs Hd. simpl. by rewrite Hs, Hd. Qed.

(** A call of [elementToSelector] that throws leaves the loop as an
    exception. *)
Lemma matchFrom_raises event cache i lastSelector e rest :
  selectorOf' e = None ->
  matchFrom' event cache i lastSelector (e :: rest) = (cache, Raised).
Proof. intros Hs. simpl. by rewrite Hs. Qed.

(** More than one match: the loop goes on to the next ancestor. *)
Lemma matchFrom_ambiguous event cache i lastSelector e rest selector d1 d2 l cache' :
  selectorOf' e = Some selector ->
  domElementsOf' cache (combine selector lastSelector)
  = Some (elementsArray (d1 :: d2 :: l), cache') ->
  matchFrom' event cache i lastSelector (e :: rest)
  = matchFrom' event cache' (S i) (Some (combine selector lastSelector)) rest.
Proof. intros Hs Hd. simpl. by rewrite Hs, Hd. Qed.

(** No match at any step after the first: the selector tried at step [i + 1]
    is that of the path element combined with the innermost selector [s0]
    behind [i] wildcards, and the loop runs to the end of the path. *)
Lemma matchFrom_nothing event s0 :
  truthy s0 = true ->
  forall rest cache i,
    coherent' cache ->
    (forall e, e ∈ rest -> is_Some (selectorOf' e)) ->
    (forall k e s,
        rest !! k = Some e -> selectorOf' e = Some s ->
        querySelectorAllDeep (s +:+ " > " +:+ widened (i + k) s0) document
          (Cache.pageElements cache)
        = Some []) ->
    snd (matchFrom' event cache (S i) (Some (widened i s0)) rest) = Unresolved.
Proof.
  intros Hs0. induction rest as [|e rest IH]; intros cache i Hc Hall Hq.
  - reflexivity.
  - destruct (Hall e) as [s Hs]; [by left |].
    assert (Hq0 := Hq 0%nat e s eq_refl Hs). rewrite Nat.add_0_r in Hq0.
    destruct (domElementsOf_complete _ _ _ Hc (Object_prototype_combined _ _) Hq0)
      as [c1 Hd].
    destruct (domElementsOf_sound _ _ _ _ Hc Hd) as (Hc1 & Hp1 & _).
    cbn [matchFrom]. rewrite Hs. cbn [combine].
    rewrite (truthy_widened i s0 Hs0), Hd. cbn [lengthOf length].
    destruct (bool_decide (rest = [])); [reflexivity |].
    cbn [Nat.ltb Nat.leb truthy_opt andb default].
    rewrite (truthy_widened i s0 Hs0).
    apply (IH c1 (S i) Hc1).
    + intros e' He'. apply Hall. by right.
    + intros k e' s' Hk Hs'. rewrite Hp1.
      replace (S i + k)%nat with (i + S k)%nat by lia.
      by apply (Hq (S k) e' s').
Qed.

(** C2 (as amended).  For one event: (1) when [elementToSelector] throws on
    none of its path elements, the memoised query results are those of the
    document, its innermost selector matches no element and is not the name
    of a member of [Object.prototype] of length 1, and each ancestor's
    selector combined with it (behind a wildcard for each ancestor in
    between) matches no element either, the loop runs to the outermost path
    element and yields no element; (2) when the memoised query
    throws at the step the loop has reached, the loop breaks there, the cache
    is left as it was and no element is yielded; (3) when more than one
    element matches at a step, the event is not abandoned: the loop goes on to
    the next ancestor with the combined selector, and yields no element if
    there is no further ancestor; (4) an event that yields no element leaves
    the array of elements as it was and the events after it are processed,
    from the cache that event left; (5) when [elementToSelector] throws at the
    step the loop has reached, the exception is not caught: it leaves the
    callback, the events after it are not processed and [elements] throws. *)
Theorem failed_match_is_silent :
  (forall event e rest s0 cache,
      ElementsEventType.elements event = e :: rest ->
      selectorOf' e = Some s0 ->
      (forall e', e' ∈ rest -> is_Some (selectorOf' e')) ->
      Object_prototype s0 <> Some (Some 1%nat) ->
      coherent' cache ->
      querySelectorAllDeep s0 document (Cache.pageElements cache) = Some [] ->
      (forall k e' s,
          rest !! k = Some e' -> selectorOf' e' = Some s ->
          querySelectorAllDeep (s +:+ " > " +:+ widened k s0) document
            (Cache.pageElements cache)
          = Some []) ->
      snd (matchEvent' cache event) = Unresolved)
  /\ (forall event cache i lastSelector e rest selector,
        selectorOf' e = Some selector ->
        domElementsOf' cache (combine selector lastSelector) = None ->
        matchFrom' event cache i lastSelector (e :: rest) = (cache, Unresolved))
  /\ (forall event cache i lastSelector e rest selector d1 d2 l cache',
        selectorOf' e = Some selector ->
        domElementsOf' cache (combine selector lastSelector)
        = Some (elementsArray (d1 :: d2 :: l), cache') ->
        matchFrom' event cache i lastSelector (e :: rest)
        = matchFrom' event cache' (S i) (Some (combine selector lastSelector)) rest
        /\ (rest = [] ->
            matchFrom' event cache i lastSelector (e :: rest) = (cache', Unresolved)))
  /\ (forall cache l event events,
        snd (matchEvent' cache event) = Unresolved ->
        fold_left pushMatch' (event :: events) (cache, Some l)
        = fold_left pushMatch' events (fst (matchEvent' cache event), Some l))
  /\ (forall event cache i lastSelector e rest,
        selectorOf' e = None ->
        matchFrom' event cache i lastSelector (e :: rest) = (cache, Raised))
  /\ (forall cache l event events,
        snd (matchEvent' cache event) = Raised ->
        snd (fold_left pushMatch' (event :: events) (cache, Some l)) = None).
Proof.
  split; [| split; [| split; [| split; [| split]]]].
  - intros event e rest s0 cache He Hs Hall Hproto Hc Hq0 Hq.
    pose proof (selectorOf_truthy e s0 Hs) as Ht.
    destruct (domElementsOf_nothing cache s0 Hc Hproto Hq0) as (ds & c1 & Hd & Hlen).
    destruct (domElementsOf_sound _ _ _ _ Hc Hd) as (Hc1 & Hp1 & _).
    assert (Hnext : snd (matchFrom' event c1 1 (Some s0) rest) = Unresolved).
    { apply (matchFrom_nothing event s0 Ht rest c1 0 Hc1 Hall).
      intros k e' s Hk Hs'. rewrite Hp1. by apply (Hq k e' s). }
    unfold matchEvent. rewrite He. cbn [matchFrom]. rewrite Hs. cbn [combine].
    rewrite Hd.
    destruct (lengthOf ds) as [[|[|n]]|]; [| congruence | exact Hnext | exact Hnext].
    destruct (bool_decide (rest = [])); [reflexivity |].
    cbn [Nat.ltb Nat.leb andb]. exact Hnext.
  - apply matchFrom_throws.
  - intros event cache i lastSelector e rest selector d1 d2 l cache' Hs Hd.
    rewrite (matchFrom_ambiguous _ _ _ _ _ _ _ _ _ _ _ Hs Hd).
    split; [reflexivity | by intros ->].
  - intros cache l event events Hnone. simpl. f_equal.
    unfold pushMatch; simpl.
    destruct (matchEvent' cache event) as [c r]. simpl in Hnone. by subst r.
  - apply matchFrom_raises.
  - intros cache l event events Hraised. simpl.
    assert (E : pushMatch' (cache, Some l) event = (fst (matchEvent' cache event), None)).
    { unfold pushMatch; simpl.
      destruct (matchEvent' cache event) as [c r]. simpl in Hraised. by subst r. }
    rewrite E. generalize (fst (matchEvent' cache event)). clear.
    induction events as [|ev events IH]; intros c; [reflexivity | apply IH].
Qed.

End ResolverFacts.

(** C1, witness: on a page where [a.link] matches node 7 alone, the event
    whose innermost element is that link resolves to node 7. *)
Lemma unique_innermost_match_witness :
  let page := [("a.link", Some [7%nat])] in
  let event := ElementsEventType.mk 5 [linkElement; itemElement] "h1" "$autocapture" in
  let found := ResolvedElement.mk (Some 7%nat) 5 "a.link" "h1" "$autocapture" in
  (tooSimple linkElement = false ->
   exists output,
     snd (elements pageSelector pageCollect pageQuery page Cache.empty
            (Some (PaginatedResponse.mk null null [event])) [] "https://example.com/" false)
     = Some output
     /\ found ∈ output)
  /\ (forall c,
        coherent pageQuery page c ->
        Cache.pageElements c
        = Cache.pageElements (refreshCache pageCollect page "https://example.com/" Cache.empty) ->
        exists c',
          domElementsOf pageQuery page c "a.link" = Some (elementsArray [7%nat], c')
          /\ matchEvent pageSelector pageQuery page [] false c event
             = if tooSimple linkElement
               then matchFrom pageSelector pageQuery page [] false event c' 1
                      (Some "a.link") [itemElement]
               else (c', Resolved found))
  /\ (tooSimple linkElement = true -> [itemElement] = [] ->
      forall c,
        coherent pageQuery page c ->
        Cache.pageElements c
        = Cache.pageElements (refreshCache pageCollect page "https://example.com/" Cache.empty) ->
        snd (matchEvent pageSelector pageQuery page [] false c event) = Unresolved).
Proof.
  apply (unique_innermost_match pageSelector pageCollect pageQuery
           [("a.link", Some [7%nat])] [] false Cache.empty
           (PaginatedResponse.mk null null
              [ElementsEventType.mk 5 [linkElement; itemElement] "h1" "$autocapture"])
           "https://example.com/"
           (ElementsEventType.mk 5 [linkElement; itemElement] "h1" "$autocapture")
           linkElement [itemElement] "a.link" 7%nat).
  - intros s l. simpl. rewrite lookup_empty. discriminate.
  - intros event e _ _. eexists. reflexivity.
  - simpl. set_solver.
  - reflexivity.
  - reflexivity.
  - reflexivity.
  - reflexivity.
Defined.

(** C2, witness: on a page where nothing matches, and whose engine throws on
    a selector it cannot parse, the event yields no element. *)
Lemma failed_match_is_silent_witness :
  snd (matchEvent pageSelector pageQuery [("li >", None)] [] false Cache.empty
         (ElementsEventType.mk 3 [itemElement; buttonElement] "h3" "$rageclick"))
  = Unresolved.
Proof.
  apply (proj1 (failed_match_is_silent pageSelector pageQuery [("li >", None)] [] false)
           (ElementsEventType.mk 3 [itemElement; buttonElement] "h3" "$rageclick")
           itemElement [buttonElement] "li" Cache.empty).
  - reflexivity.
  - reflexivity.
  - intros e' _. eexists. reflexivity.
  - discriminate.
  - intros s l. simpl. rewrite lookup_empty. discriminate.
  - reflexivity.
  - intros [|[|k]] e' s Hk Hs; try discriminate.
    injection Hk as <-. injection Hs as <-. reflexivity.
Defined.

(** C1, counterexample to the claim as first stated.  (1) A maximally generic
    innermost element does not make the event produce no element: [svg] is
    maximally generic and matches node 1 alone, and the event still resolves
    to node 1 one step later, through [button.save > svg].  (2) A memo kept
    for an unchanged URL answers for the document: [a.link] matches node 7
    alone now, and the event resolves to node 3, which the memo holds.
    (3) The memo is a plain object: [constructor] matches node 7 alone, and
    the read finds [Object.prototype.constructor], whose length is 1 and
    whose index 0 is [undefined], which is what the event resolves to.
    (4) [elementToSelector] is called outside the [try] block: when it throws
    on an earlier event, [elements] throws and returns no element at all. *)
Lemma generic_innermost_still_resolves :
  (tooSimple svgElement = true
   /\ pageQuery "svg" [("svg", Some [1%nat]); ("button.save > svg", Some [1%nat])] []
      = Some [1%nat]
   /\ snd (elements pageSelector pageCollect pageQuery
             [("svg", Some [1%nat]); ("button.save > svg", Some [1%nat])] Cache.empty
             (Some (PaginatedResponse.mk null null
                      [ElementsEventType.mk 5 [svgElement; buttonElement] "h1"
                         "$autocapture"]))
             [] "https://example.com/" false)
      = Some [ResolvedElement.mk (Some 1%nat) 5 "button.save" "h1" "$autocapture"])
  /\ (pageQuery "a.link" [("a.link", Some [7%nat])] [] = Some [7%nat]
      /\ snd (elements pageSelector pageCollect pageQuery [("a.link", Some [7%nat])]
                (Cache.mk (Some "https://example.com/") [] {["a.link" := [3%nat]]})
                (Some (PaginatedResponse.mk null null
                         [ElementsEventType.mk 5 [linkElement] "h1" "$autocapture"]))
                [] "https://example.com/" false)
         = Some [ResolvedElement.mk (Some 3%nat) 5 "a.link" "h1" "$autocapture"])
  /\ (tooSimple constructorElement = false
      /\ pageQuery "constructor" [("constructor", Some [7%nat])] [] = Some [7%nat]
      /\ snd (elements pageSelector pageCollect pageQuery [("constructor", Some [7%nat])]
                Cache.empty
                (Some (PaginatedResponse.mk null null
                         [ElementsEventType.mk 5 [constructorElement] "h1" "$autocapture"]))
                [] "https://example.com/" false)
         = Some [ResolvedElement.mk None 5 "constructor" "h1" "$autocapture"])
  /\ (pageQuery "a.link" [("a.link", Some [7%nat])] [] = Some [7%nat]
      /\ snd (elements throwingSelector pageCollect pageQuery [("a.link", Some [7%nat])]
                Cache.empty
                (Some (PaginatedResponse.mk null null
                         [ElementsEventType.mk 2 [namelessElement] "h0" "$autocapture";
                          ElementsEventType.mk 5 [linkElement] "h1" "$autocapture"]))
                [] "https://example.com/" false)
         = None).
Proof. repeat split; vm_compute; reflexivity. Qed.

(** C2, counterexample to the claim as first stated.  (1) More than one
    match does not make the event yield no element: [a.link] matches nodes 1
    and 2, and the event resolves to node 2 one step later, through
    [li > a.link].  (2) An exception of the selector construction is not
    swallowed: [elementToSelector] throws on the second event, and [elements]
    throws, losing the element of the first event as well.  (3) A path that
    matches nothing still yields an entry when its innermost selector is
    [constructor]: the memo read finds [Object.prototype.constructor], and the
    entry pushed has [undefined] as its element.  (4) A path that matches
    nothing still yields an element when the memo kept for an unchanged URL
    holds one for its selector. *)
Lemma ambiguous_match_still_resolves :
  (pageQuery "a.link" [("a.link", Some [1%nat; 2%nat]); ("li > a.link", Some [2%nat])] []
   = Some [1%nat; 2%nat]
   /\ snd (elements pageSelector pageCollect pageQuery
             [("a.link", Some [1%nat; 2%nat]); ("li > a.link", Some [2%nat])] Cache.empty
             (Some (PaginatedResponse.mk null null
                      [ElementsEventType.mk 5 [linkElement; itemElement] "h1"
                         "$autocapture"]))
             [] "https://example.com/" false)
      = Some [ResolvedElement.mk (Some 2%nat) 5 "li" "h1" "$autocapture"])
  /\ (throwingSelector namelessElement [] = None
      /\ snd (elements throwingSelector pageCollect pageQuery [("a.link", Some [7%nat])]
                Cache.empty
                (Some (PaginatedResponse.mk null null
                         [ElementsEventType.mk 5 [linkElement] "h1" "$autocapture";
                          ElementsEventType.mk 2 [itemElement; namelessElement] "h0"
                            "$autocapture"]))
                [] "https://example.com/" false)
         = None)
  /\ (pageQuery "constructor" [] [] = Some []
      /\ pageQuery "li > constructor" [] [] = Some []
      /\ snd (elements pageSelector pageCollect pageQuery [] Cache.empty
                (Some (PaginatedResponse.mk null null
                         [ElementsEventType.mk 5 [constructorElement; itemElement] "h1"
                            "$autocapture"]))
                [] "https://example.com/" false)
         = Some [ResolvedElement.mk None 5 "constructor" "h1" "$autocapture"])
  /\ (pageQuery "li" [] [] = Some []
      /\ snd (elements pageSelector pageCollect pageQuery []
                (Cache.mk (Some "https://example.com/") [] {["li" := [3%nat]]})
                (Some (PaginatedResponse.mk null null
                         [ElementsEventType.mk 5 [itemElement] "h1" "$autocapture"]))
                [] "https://example.com/" false)
         = Some [ResolvedElement.mk (Some 3%nat) 5 "li" "h1" "$autocapture"]).
Proof. repeat split; vm_compute; reflexivity. Qed.

(** A page whose second event throws in the query and whose third matches
    nothing: the first and the last event are resolved all the same. *)
Example failed_events_do_not_block :
  snd (elements pageSelector pageCollect pageQuery
         [("a.link", Some [7%nat]); ("button.save", None); ("svg", Some [1%nat; 2%nat])]
         Cache.empty
         (Some (PaginatedResponse.mk null null
                  [ElementsEventType.mk 5 [linkElement] "h1" "$autocapture";
                   ElementsEventType.mk 4 [buttonElement; itemElement] "h2" "$autocapture";
                   ElementsEventType.mk 3 [itemElement; buttonElement] "h3" "$rageclick";
                   ElementsEventType.mk 2 [svgElement] "h4" "$autocapture";
                   ElementsEventType.mk 1 [linkElement; itemElement] "h5" "$rageclick"]))
         [] "https://example.com/" true)
  = Some [ResolvedElement.mk (Some 7%nat) 5 "a.link" "h1" "$autocapture";
          ResolvedElement.mk (Some 7%nat) 1 "a.link" "h5" "$rageclick"].
Proof. vm_compute. reflexivity. Qed.

(** The members of [Object.prototype] by their length: a selector that is
    [toString] counts as matching nothing, one that is [__proto__] as
    ambiguous, whatever the document holds. *)
Example Object_prototype_members :
  Object_prototype "constructor" = Some (Some 1%nat)
  /\ Object_prototype "toString" = Some (Some 0%nat)
  /\ Object_prototype "__defineGetter__" = Some (Some 2%nat)
  /\ Object_prototype "__proto__" = Some None
  /\ Object_prototype "a.link" = None
  /\ Object_prototype "li > constructor" = None.
Proof. repeat split. Qed.

(** ** The element aggregator *)

Lemma Map_get_set {K V : Type} `{EqDecision K} (m : list (K * V)) (k k' : K) (v : V) :
  Map_get (Map_set k v m) k' = if decide (k = k') then Some v else Map_get m k'.
Proof.
  induction m as [|[k0 v0] m IH]; simpl.
  - reflexivity.
  - destruct (decide (k0 = k)) as [->|Hne]; simpl.
    + destruct (decide (k = k')); reflexivity.
    + rewrite IH. destruct (decide (k0 = k')) as [->|]; [| reflexivity].
      destruct (decide (k = k')); [congruence | reflexivity].
Qed.

Lemma Map_set_keys {K V : Type} `{EqDecision K} (m : list (K * V)) (k : K) (v : V) :
  map fst (Map_set k v m)
  = match Map_get m k with
    | Some _ => map fst m
    | None => map fst m ++ [k]
    end.
Proof.
  induction m as [|[k0 v0] m IH]; simpl.
  - reflexivity.
  - destruct (decide (k0 = k)) as [->|Hne]; simpl.
    + reflexivity.
    + rewrite IH. by destruct (Map_get m k).
Qed.

Lemma Map_get_None {K V : Type} `{EqDecision K} (m : list (K * V)) (k : K) :
  Map_get m k = None -> k ∉ map fst m.
Proof.
  induction m as [|[k0 v0] m IH]; simpl.
  - intros _. apply not_elem_of_nil.
  - destruct (decide (k0 = k)); [discriminate |].
    intros Hm. apply not_elem_of_cons. split; [congruence | by apply IH].
Qed.

Lemma Map_get_elem {K V : Type} `{EqDecision K} (m : list (K * V)) (k : K) (v : V) :
  NoDup (map fst m) -> (k, v) ∈ m -> Map_get m k = Some v.
Proof.
  induction m as [|[k0 v0] m IH]; simpl.
  - intros _ Hin. by apply elem_of_nil in Hin.
  - intros Hnd Hin. apply NoDup_cons in Hnd as [Hk0 Hnd].
    apply elem_of_cons in Hin as [[= -> ->]|Hin].
    + by rewrite decide_True.
    + destruct (decide (k0 = k)) as [->|]; [| by apply IH].
      exfalso. apply Hk0. apply list_elem_of_fmap. by exists (k, v).
Qed.

Lemma Map_set_NoDup {K V : Type} `{EqDecision K} (m : list (K * V)) (k : K) (v : V) :
  NoDup (map fst m) -> NoDup (map fst (Map_set k v m)).
Proof.
  intros Hnd. rewrite Map_set_keys. destruct (Map_get m k) eqn:Hg; [exact Hnd |].
  apply NoDup_app. split; [exact Hnd | split; [| apply NoDup_singleton]].
  intros x Hx Hk. apply list_elem_of_singleton in Hk as ->.
  by apply (Map_get_None m k Hg).
Qed.

Section AggregatorFacts.

Context {HTMLElement : Type} `{EqDecision HTMLElement} {ActionStepType : Type}.
Variable trimElement : HTMLElement -> option HTMLElement.
Variable elementToActionStep : HTMLElement -> list string -> ActionStepType.
Variable dataAttributes : list string.

Local Abbreviation Counted := (CountedHTMLElement.t HTMLElement ActionStepType).
Local Abbreviation Resolved := (ResolvedElement.t HTMLElement).
Local Abbreviation normalise' := (normalise trimElement elementToActionStep dataAttributes).
Local Abbreviation trimsTo' := (trimsTo trimElement).
Local Abbreviation settled' := (settled (ActionStepType := ActionStepType) trimElement).
Local Abbreviation aggregated' := (aggregated (ActionStepType := ActionStepType) trimElement).

Lemma sumCount_app (l1 l2 : list Resolved) :
  sumCount (l1 ++ l2) = sumCount l1 + sumCount l2.
Proof. induction l1 as [|r l1 IH]; simpl; [reflexivity | rewrite IH; lia]. Qed.

Lemma filter_snoc (P : Resolved -> bool) (l : list Resolved) (r : Resolved) :
  List.filter P (l ++ [r]) = List.filter P l ++ (if P r then [r] else []).
Proof. rewrite List.filter_app. reflexivity. Qed.

Lemma normalise_aggregated (seen : list Resolved) (m : list (HTMLElement * Counted))
    (r : Resolved) :
  aggregated' seen m -> aggregated' (seen ++ [r]) (normalise' m r).
Proof.
  intros [Hnd Hm]. unfold normalise.
  destruct (trimElement (ResolvedElement.element r)) as [t|] eqn:Ht.
  - assert (Hself : trimsTo' t r = true) by (unfold trimsTo; by rewrite Ht, bool_decide_eq_true).
    assert (Hother : forall node, t <> node -> trimsTo' node r = false).
    { intros node Hne. unfold trimsTo. rewrite Ht.
      apply bool_decide_eq_false. congruence. }
    assert (Hkeep : forall node c, t <> node -> settled' seen node c ->
                                   settled' (seen ++ [r]) node c).
    { intros node c Hne (He & Hc & Hk & Hr). unfold settled'.
      rewrite !filter_snoc, (Hother node Hne); simpl. by rewrite !app_nil_r. }
    pose proof (Hm t) as Hmt.
    destruct (Map_get m t) as [existing|] eqn:Hg.
    + split; [by apply Map_set_NoDup |].
      intros node. rewrite Map_get_set. destruct (decide (t = node)) as [<-|Hne].
      * destruct Hmt as (He & Hc & Hk & Hr). unfold settled'; simpl.
        rewrite !filter_snoc, Hself, !sumCount_app; simpl.
        fold (isRageclick r). rewrite He, Hc, Hk, Hr.
        destruct (isRageclick r); simpl; repeat split; lia.
      * specialize (Hm node). destruct (Map_get m node); [by apply Hkeep |].
        by rewrite filter_snoc, (Hother node Hne), Hm.
    + split; [by apply Map_set_NoDup |].
      intros node. rewrite Map_get_set. destruct (decide (t = node)) as [<-|Hne].
      * unfold settled'; simpl.
        assert (Hnil : forall P, List.filter (fun x => trimsTo' t x && P x) seen = []).
        { intros P. clear -Hmt. induction seen as [|x l IH]; [reflexivity |].
          simpl in *. destruct (trimsTo' t x); [discriminate |]. by apply IH. }
        rewrite !filter_snoc, Hself, Hmt, !Hnil; simpl.
        fold (isRageclick r). destruct (isRageclick r); simpl; repeat split; lia.
      * specialize (Hm node). destruct (Map_get m node); [by apply Hkeep |].
        by rewrite filter_snoc, (Hother node Hne), Hm.
  - split; [exact Hnd |]. intros node.
    assert (Hno : trimsTo' node r = false).
    { unfold trimsTo. rewrite Ht. by apply bool_decide_eq_false. }
    specialize (Hm node). destruct (Map_get m node).
    + destruct Hm as (He & Hc & Hk & Hr). unfold settled'.
      rewrite !filter_snoc, Hno; simpl. by rewrite !app_nil_r.
    + by rewrite filter_snoc, Hno, Hm.
Qed.

Lemma fold_normalise_aggregated (l seen : list Resolved)
    (m : list (HTMLElement * Counted)) :
  aggregated' seen m -> aggregated' (seen ++ l) (fold_left normalise' l m).
Proof.
  revert seen m. induction l as [|r l IH]; intros seen m Hm; simpl.
  - by rewrite app_nil_r.
  - replace (seen ++ r :: l) with ((seen ++ [r]) ++ l) by (by rewrite <- app_assoc).
    apply IH. by apply normalise_aggregated.
Qed.

Lemma normalisedElementsOf_aggregated (l : list Resolved) :
  aggregated' l (normalisedElementsOf trimElement elementToActionStep l dataAttributes).
Proof.
  apply (fold_normalise_aggregated l [] []).
  split; [constructor | intros node; reflexivity].
Qed.

Lemma sumCount_split (P Q : Resolved -> bool) (l : list Resolved) :
  sumCount (List.filter P l)
  = sumCount (List.filter (fun r => P r && negb (Q r)) l)
    + sumCount (List.filter (fun r => P r && Q r) l).
Proof.
  induction l as [|r l IH]; simpl; [reflexivity |].
  destruct (P r), (Q r); simpl; lia.
Qed.

(** *** The sort *)

Local Abbreviation sorted' := (StronglySorted (descending (HTMLElement := HTMLElement)
                                                (ActionStepType := ActionStepType))).
Local Abbreviation insertByCount := (Array_insert (A := Counted) byCountDescending).
Local Abbreviation sortByCount := (Array_sort (A := Counted) byCountDescending).

Lemma Array_insert_Permutation (a : Counted) (l : list Counted) : insertByCount a l ≡ₚ a :: l.
Proof.
  induction l as [|b l IH]; simpl; [reflexivity |].
  destruct (0 <? byCountDescending a b); [| reflexivity].
  rewrite IH. apply Permutation_swap.
Qed.

Lemma Array_sort_Permutation (l : list Counted) : sortByCount l ≡ₚ l.
Proof.
  induction l as [|a l IH]; simpl; [reflexivity |].
  rewrite Array_insert_Permutation. by rewrite IH.
Qed.

Lemma Array_insert_sorted (a : Counted) (l : list Counted) :
  sorted' l -> sorted' (insertByCount a l).
Proof.
  induction l as [|b l IH]; intros Hs; simpl.
  - repeat constructor.
  - apply StronglySorted_inv in Hs as [Hl Hb].
    destruct (0 <? byCountDescending a b) eqn:Hcmp.
    + apply Z.ltb_lt in Hcmp. unfold byCountDescending in Hcmp.
      constructor; [by apply IH |].
      rewrite Array_insert_Permutation. constructor; [| exact Hb].
      unfold descending. lia.
    + apply Z.ltb_ge in Hcmp. unfold byCountDescending in Hcmp.
      constructor; [by constructor |].
      constructor; [unfold descending; lia |].
      eapply Forall_impl; [exact Hb |]. unfold descending. intros x Hx. lia.
Qed.

Lemma Array_sort_sorted (l : list Counted) : sorted' (sortByCount l).
Proof.
  induction l as [|a l IH]; simpl; [constructor | by apply Array_insert_sorted].
Qed.

(** Stability: the entries of any one count keep their relative order. *)
Lemma Array_insert_stable (v : Z) (a : Counted) (l : list Counted) :
  List.filter (fun c => CountedHTMLElement.count c =? v) (insertByCount a l)
  = List.filter (fun c => CountedHTMLElement.count c =? v) (a :: l).
Proof.
  induction l as [|b l IH]; [reflexivity |].
  cbn [Array_insert]. destruct (0 <? byCountDescending a b) eqn:Hcmp; [| reflexivity].
  apply Z.ltb_lt in Hcmp. unfold byCountDescending in Hcmp.
  cbn [List.filter] in *. rewrite IH.
  destruct (CountedHTMLElement.count a =? v) eqn:Ha,
           (CountedHTMLElement.count b =? v) eqn:Hb; try reflexivity.
  apply Z.eqb_eq in Ha, Hb. lia.
Qed.

Lemma Array_sort_stable (v : Z) (l : list Counted) :
  List.filter (fun c => CountedHTMLElement.count c =? v) (sortByCount l)
  = List.filter (fun c => CountedHTMLElement.count c =? v) l.
Proof.
  induction l as [|a l IH]; [reflexivity |].
  cbn [Array_sort foldr]. rewrite Array_insert_stable.
  cbn [List.filter]. fold (sortByCount l). by rewrite IH.
Qed.

Lemma imap_sorted (f : nat -> Counted -> Counted) (l : list Counted) :
  (forall i c, CountedHTMLElement.count (f i c) = CountedHTMLElement.count c) ->
  sorted' l -> sorted' (imap f l).
Proof.
  revert f. induction l as [|a l IH]; intros f Hf Hs; simpl; [constructor |].
  apply StronglySorted_inv in Hs as [Hl Ha]. constructor.
  - apply IH; [intros i c; apply Hf | exact Hl].
  - apply Forall_forall. intros x Hx.
    apply elem_of_lookup_imap in Hx as (i & y & -> & Hy).
    unfold descending, compose. rewrite !Hf.
    rewrite Forall_forall in Ha. apply Ha. by eapply list_elem_of_lookup_2.
Qed.

(** *** The claims *)

Local Abbreviation countedElements' :=
  (countedElements trimElement elementToActionStep).
Local Abbreviation normalisedElementsOf' :=
  (normalisedElementsOf trimElement elementToActionStep).

(** Every entry of the map, once the [forEach] is over, is settled for its node. *)
Lemma Map_values_settled (elements : list Resolved) (c : Counted) :
  c ∈ Map_values (normalisedElementsOf' elements dataAttributes) ->
  settled' elements (CountedHTMLElement.element c) c.
Proof.
  intros Hc. destruct (normalisedElementsOf_aggregated elements) as [Hnd Hm].
  apply list_elem_of_fmap in Hc as ([k c'] & -> & Hin). simpl.
  specialize (Hm k). rewrite (Map_get_elem _ _ _ Hnd Hin) in Hm.
  destruct Hm as [He Hrest]. rewrite He. by split.
Qed.

(** C5.  Every entry of the aggregator's output has
    count = clickCount + rageclickCount; its count is the sum of the counts of
    the resolved elements that trim to its node, its rageclickCount the sum over
    those of type ['$rageclick'] and its clickCount the sum over the others.
    In particular two resolved elements that trim to the same node give one
    entry, whose count is the sum of theirs. *)
Theorem countedElements_counts (elements : list Resolved) (clickmapsEnabled : bool) :
  Forall
    (fun c =>
       let node := CountedHTMLElement.element c in
       CountedHTMLElement.count c
       = CountedHTMLElement.clickCount c + CountedHTMLElement.rageclickCount c
       /\ CountedHTMLElement.count c = sumCount (List.filter (trimsTo' node) elements)
       /\ CountedHTMLElement.clickCount c
          = sumCount (List.filter (fun r => trimsTo' node r && negb (isRageclick r)) elements)
       /\ CountedHTMLElement.rageclickCount c
          = sumCount (List.filter (fun r => trimsTo' node r && isRageclick r) elements))
    (countedElements' elements dataAttributes clickmapsEnabled)
  /\ forall (r1 r2 : Resolved) (node : HTMLElement),
       trimElement (ResolvedElement.element r1) = Some node ->
       trimElement (ResolvedElement.element r2) = Some node ->
       exists c,
         countedElements' [r1; r2] dataAttributes true = [c]
         /\ CountedHTMLElement.element c = node
         /\ CountedHTMLElement.count c
            = ResolvedElement.count r1 + ResolvedElement.count r2
         /\ CountedHTMLElement.clickCount c
            = (if isRageclick r1 then 0 else ResolvedElement.count r1)
              + (if isRageclick r2 then 0 else ResolvedElement.count r2)
         /\ CountedHTMLElement.rageclickCount c
            = (if isRageclick r1 then ResolvedElement.count r1 else 0)
              + (if isRageclick r2 then ResolvedElement.count r2 else 0).
Proof.
  split.
  - unfold countedElements.
    destruct clickmapsEnabled; simpl; [| constructor].
    apply Forall_forall. intros c Hc.
    apply elem_of_lookup_imap in Hc as (i & c0 & -> & Hi).
    apply list_elem_of_lookup_2 in Hi.
    rewrite Array_sort_Permutation in Hi.
    destruct (Map_values_settled _ _ Hi) as (He & Hcount & Hclick & Hrage).
    simpl. rewrite Hcount, Hclick, Hrage.
    split; [apply sumCount_split | by repeat split].
  - intros r1 r2 node H1 H2.
    unfold countedElements, normalisedElementsOf; simpl.
    unfold normalise at 2. rewrite H1; simpl.
    unfold normalise. rewrite H2; simpl.
    rewrite !decide_True by reflexivity; simpl.
    eexists; split; [reflexivity |]. simpl. by repeat split.
Qed.

(** C6.  With clickmaps enabled the output is the map's entries, taken in
    insertion order, sorted by count descending, each with its 1-based index
    as position: the sorted list is a permutation of the entries, its counts
    descend, entries of equal count keep their insertion order, and the entry
    at index i of the output has position i + 1. *)
Theorem countedElements_ranked (elements : list Resolved) :
  let entries := Map_values (normalisedElementsOf' elements dataAttributes) in
  let ranked := Array_sort byCountDescending entries in
  let output := countedElements' elements dataAttributes true in
  output = imap withPosition ranked
  /\ ranked ≡ₚ entries
  /\ sorted' ranked
  /\ (forall v,
        List.filter (fun c => CountedHTMLElement.count c =? v) ranked
        = List.filter (fun c => CountedHTMLElement.count c =? v) entries)
  /\ sorted' output
  /\ length output = length entries
  /\ (forall i c, output !! i = Some c ->
        CountedHTMLElement.position c = Some (Z.of_nat i + 1)).
Proof.
  cbv zeta. split; [reflexivity |].
  split; [apply Array_sort_Permutation |].
  split; [apply Array_sort_sorted |].
  split; [intros v; apply Array_sort_stable |].
  unfold countedElements; simpl.
  split; [apply imap_sorted; [reflexivity | apply Array_sort_sorted] |].
  split; [by rewrite length_imap, Array_sort_Permutation |].
  intros i c Hi. rewrite list_lookup_imap in Hi.
  destruct (Array_sort _ _ !! i); simpl in Hi; [| discriminate].
  by injection Hi as <-.
Qed.

End AggregatorFacts.

(** Three nodes of equal count keep the order in which their first events
    came; nodes 11 and 12 collapse to node 1, node 0 is dropped. *)
Example countedElements_page :
  map (fun c => (CountedHTMLElement.element c, CountedHTMLElement.count c,
                 CountedHTMLElement.clickCount c, CountedHTMLElement.rageclickCount c,
                 CountedHTMLElement.position c))
    (countedElements pageTrim (fun n _ => n)
       [ResolvedElement.mk 31%nat 7 "e" "h5" "$autocapture";
        ResolvedElement.mk 11%nat 5 "a" "h1" "$autocapture";
        ResolvedElement.mk 21%nat 9 "b" "h2" "$rageclick";
        ResolvedElement.mk 12%nat 2 "c" "h3" "$rageclick";
        ResolvedElement.mk 0%nat 9 "d" "h4" "$autocapture"]
       [] true)
  = [(2%nat, 9, 0, 9, Some 1); (3%nat, 7, 7, 0, Some 2); (1%nat, 7, 5, 2, Some 3)].
Proof. vm_compute. reflexivity. Qed.

(** ** The element-stats loader *)

(** C9 (as amended).  When the element-stats endpoint answers 403, whatever
    the body and whether or not a later call has been made: [authenticate] is
    called exactly once; the loader returns the empty page and does not throw;
    no record of the response is added, but the state is not left as it was:
    the empty page takes the place of the element stats accumulated so far,
    [canLoadMoreElementStats] becomes true, and every other reducer keeps its
    value, the heatmap's enabled flag included, which is not reset. *)
Theorem getElementStats_forbidden (elementStatsUrl : string -> string -> CommonFilters.t -> string)
    (href wildcardHref : string) (state : State.t) (url : Token)
    (json : option PaginatedResults.t) (superseded : bool) :
  let run :=
    getElementStats elementStatsUrl href wildcardHref state url
      (Response.mk 403 json) superseded in
  let state' := settle state (snd run) in
  length (List.filter is_authenticate (fst run)) = 1%nat
  /\ snd run = Returned emptyElementsStatsPages
  /\ State.elementStats state' = Some emptyElementsStatsPages
  /\ PaginatedResponse.results emptyElementsStatsPages = []
  /\ State.canLoadMoreElementStats state' = true
  /\ State.heatmapEnabled state' = State.heatmapEnabled state
  /\ State.matchLinksByHref state' = State.matchLinksByHref state
  /\ State.shiftPressed state' = State.shiftPressed state
  /\ State.commonFilters state' = State.commonFilters state
  /\ State.heatmapFilters state' = State.heatmapFilters state
  /\ State.clickmapsEnabled state' = State.clickmapsEnabled state
  /\ State.heatmapScrollY state' = State.heatmapScrollY state
  /\ State.heatmapFixedPositionMode state' = State.heatmapFixedPositionMode state
  /\ State.rawHeatmap state' = State.rawHeatmap state.
Proof. cbv zeta. unfold getElementStats; simpl. repeat split. Qed.

(** C9, counterexample to the claim as first stated (a 403 leaves the local
    state as it was but for a reset of the enabled flag): from [loadedState],
    which holds a page of element stats, can load no more and has the heatmap
    enabled, a 403 leaves the heatmap enabled, drops the record accumulated so
    far and allows loading more. *)
Lemma forbidden_drops_accumulated_stats :
  let state :=
    getElementStatsSuccess loadedState
      (PaginatedResponse.mk null null
         [ElementsEventType.mk 5 [linkElement] "h1" "$autocapture"]) in
  let run :=
    getElementStats pageStatsUrl "https://example.com/" "https://example.com/" state
      undefined (Response.mk 403 None) false in
  let state' := settle state (snd run) in
  State.heatmapEnabled state = true
  /\ State.heatmapEnabled state' = true
  /\ (PaginatedResponse.results <$> State.elementStats state)
     = Some [ElementsEventType.mk 5 [linkElement] "h1" "$autocapture"]
  /\ (PaginatedResponse.results <$> State.elementStats state') = Some []
  /\ State.canLoadMoreElementStats state = false
  /\ State.canLoadMoreElementStats state' = true.
Proof. vm_compute. repeat split. Qed.

(** The other answers, for comparison: a page of results is appended to the
    accumulated ones without any call to [authenticate], and a body without a
    results array makes the loader throw, which switches the heatmap off. *)
Example getElementStats_next_page :
  let run :=
    getElementStats pageStatsUrl "https://example.com/" "https://example.com/"
      loadedState (token "/api/element/stats/?cursor=2")
      (Response.mk 200
         (Some (PaginatedResults.mk
                  (Some [ElementsEventType.mk 4 [buttonElement] "h2" "$rageclick"])
                  null (token "/api/element/stats/"))))
      false in
  fst run = [toolbarFetch "/api/element/stats/?cursor=2" "GET" "use-as-provided"]
  /\ (PaginatedResponse.results <$> State.elementStats (settle loadedState (snd run)))
     = Some [ElementsEventType.mk 5 [linkElement] "h1" "$autocapture";
             ElementsEventType.mk 4 [buttonElement] "h2" "$rageclick"]
  /\ State.canLoadMoreElementStats (settle loadedState (snd run)) = false.
Proof. vm_compute. repeat split. Qed.

Example getElementStats_malformed :
  let run :=
    getElementStats pageStatsUrl "https://example.com/" "https://example.com/"
      loadedState undefined
      (Response.mk 200 (Some (PaginatedResults.mk None null null))) false in
  run = ([toolbarFetch "/api/element/stats/?paginate_response=true" "GET" "full"],
         Thrown "Error loading HeatMap data!")
  /\ State.heatmapEnabled (settle loadedState (snd run)) = false
  /\ State.canLoadMoreElementStats (settle loadedState (snd run)) = true
  /\ State.elementStats (settle loadedState (snd run)) = State.elementStats loadedState.
Proof. vm_compute. repeat split. Qed.

Example getElementStats_forbidden_page :
  let run :=
    getElementStats pageStatsUrl "https://example.com/" "https://example.com/"
      loadedState undefined
      (Response.mk 403
         (Some (PaginatedResults.mk
                  (Some [ElementsEventType.mk 4 [buttonElement] "h2" "$rageclick"])
                  null null)))
      false in
  run = ([toolbarFetch "/api/element/stats/?paginate_response=true" "GET" "full";
          authenticate],
         Returned emptyElementsStatsPages)
  /\ State.heatmapEnabled (settle loadedState (snd run)) = true
  /\ State.elementStats (settle loadedState (snd run)) = Some emptyElementsStatsPages.
Proof. vm_compute. repeat split. Qed.
